(** * Bilingual caption video generator: timing, assembly and error model

    A shallow embedding of [app/video_composer.py] and [app/fonts.py], with
    the greedy line wrap of the text layout.  Durations are Python floats in
    the source.  The code is written once, over an interface of the float
    operations it uses, and read at two instances: exact rationals [Q],
    where the general properties are proved, and IEEE binary64
    ([PrimFloat]), where the documented scenarios are evaluated bit for bit.

    The collaborators of [build_video] (the file system, speech synthesis,
    the font loader, the audio decoder, the encoder) are the fields of a
    record; what a run does to the outside is kept as a trace of events. *)

From Stdlib Require Import QArith Qminmax Qround Lqa Floats ZArith Lia.
From Stdlib Require Import List String Ascii Bool DecimalString.
From Stdlib Require Qabs.
Import ListNotations.

Local Open Scope string_scope.
Local Open Scope Q_scope.

(** ** Python floats *)

Class PyFloat (T : Type) : Type := {
  (** the literal [0.0] *)
  fzero : T;
  (** the literal [0.2] *)
  lit_0_2 : T;
  (** [a + b] *)
  fadd : T -> T -> T;
  (** [a < b] *)
  flt : T -> T -> bool;
  (** [a / b]; [None] stands for [ZeroDivisionError] *)
  fdiv : T -> T -> option T;
  (** [int(a)], truncation toward zero; [None] for an infinity or a NaN *)
  ftrunc : T -> option Z;
  (** [float(n)] for a Python int; [None] stands for [OverflowError] *)
  f_of_int : Z -> option T;
  (** [bool(a)]: a float is falsy exactly when it compares equal to zero *)
  ftruthy : T -> bool
}.

(** Exact arithmetic. *)
Definition Qtrunc (a : Q) : Z := Z.quot (Qnum a) (Z.pos (Qden a)).

Definition Qltb (a b : Q) : bool := negb (Qle_bool b a).

#[export] Instance PyFloat_Q : PyFloat Q := {
  fzero := 0;
  lit_0_2 := 0.2;
  fadd := Qplus;
  flt := Qltb;
  fdiv := fun a b => if Qeq_bool b 0 then None else Some (a / b);
  ftrunc := fun a => Some (Qtrunc a);
  f_of_int := fun n => Some (inject_Z n);
  ftruthy := fun a => negb (Qeq_bool a 0)
}.

(** Binary64.  [int(x)] reads the mantissa and exponent of the float;
    [float(n)] rounds the integer to nearest even. *)
Definition float_trunc (x : float) : option Z :=
  match Prim2SF x with
  | S754_zero _ => Some 0%Z
  | S754_finite s m e =>
      let mag := if (0 <=? e)%Z then (Z.pos m * 2 ^ e)%Z
                 else (Z.pos m / 2 ^ (- e))%Z in
      Some (if s then (- mag)%Z else mag)
  | S754_infinity _ => None
  | S754_nan => None
  end.

Definition float_of_int (n : Z) : option float :=
  match binary_normalize 53 1024 n 0 false with
  | S754_infinity _ => None
  | sf => Some (SF2Prim sf)
  end.

#[export] Instance PyFloat_binary64 : PyFloat float := {
  fzero := 0%float;
  lit_0_2 := 0x1.999999999999ap-3%float;
  fadd := PrimFloat.add;
  flt := PrimFloat.ltb;
  fdiv := fun a b => if PrimFloat.eqb b 0%float then None
                     else Some (PrimFloat.div a b);
  ftrunc := float_trunc;
  f_of_int := float_of_int;
  ftruthy := fun a => negb (PrimFloat.eqb a 0%float)
}.

(** Python's [max(a, b)]: the first argument unless the second is greater. *)
Definition pymax {T} `{PyFloat T} (a b : T) : T := if flt a b then b else a.

(** ** Segment timer ([build_video], the body of the segment loop) *)

Section SegmentTimer.
Context {T : Type} `{PyFloat T}.

Definition teaching_gap : T := lit_0_2.

Record timing : Type := {
  en_start : T;
  ur_start : T;
  total_audio_duration : T
}.

(** [en_duration] and [ur_duration] are [en_tts.duration] and
    [ur_tts.duration]. *)
Definition schedule (en_duration ur_duration pause_after min_duration : T)
  : timing :=
  let en_start := fzero in
  let ur_start := fadd en_duration teaching_gap in
  let total_audio_duration :=
    fadd (fadd ur_start ur_duration) pause_after in
  let total_audio_duration :=
    if flt total_audio_duration min_duration then min_duration
    else total_audio_duration in
  {| en_start := en_start;
     ur_start := ur_start;
     total_audio_duration := total_audio_duration |}.
End SegmentTimer.

Arguments timing T : clear implicits.

(** ** Python values, exceptions and effects *)

Set Warnings "-register-all".

(** What [json.load] returns. A dict is kept as its items, in order. *)
Inductive json (T : Type) : Type :=
| JNull
| JBool (b : bool)
| JInt (n : Z)
| JFloat (x : T)
| JStr (s : string)
| JList (l : list (json T))
| JDict (items : list (string * json T)).

Arguments JNull {T}.
Arguments JBool {T} b.
Arguments JInt {T} n.
Arguments JFloat {T} x.
Arguments JStr {T} s.
Arguments JList {T} l.
Arguments JDict {T} items.

(** The exceptions that occur; all of them derive from [Exception]. *)
Inductive exn : Type :=
| ValueError (msg : string)
| RuntimeError (msg : string)
| AttributeError (msg : string)
| TypeError (msg : string)
| ZeroDivisionError (msg : string)
| OverflowError (msg : string)
| OSError (msg : string).

(** [str(e)] *)
Definition exn_str (e : exn) : string :=
  match e with
  | ValueError m | RuntimeError m | AttributeError m | TypeError m
  | ZeroDivisionError m | OverflowError m | OSError m => m
  end.

Inductive outcome (A : Type) : Type :=
| Returned (a : A)
| Raised (e : exn).

Arguments Returned {A} a.
Arguments Raised {A} e.

(** What [int(x)] raises on a float it cannot convert: an infinity or a
    NaN.  A NaN compares neither below nor above zero. *)
Definition int_error {T} `{PyFloat T} (x : T) : exn :=
  if (flt x fzero || flt fzero x)%bool
  then OverflowError "cannot convert float infinity to integer"
  else ValueError "cannot convert float NaN to integer".

(** [int(x)] *)
Definition py_int {T} `{PyFloat T} (x : T) : outcome Z :=
  match ftrunc x with
  | Some n => Returned n
  | None => Raised (int_error x)
  end.

(** [if s:] for an [Optional[str]] *)
Definition str_truthy (s : option string) : bool :=
  match s with
  | Some s => negb (String.eqb s "")
  | None => false
  end.

Fixpoint assoc {A} (k : string) (items : list (string * A)) : option A :=
  match items with
  | [] => None
  | (k', v) :: rest => if String.eqb k k' then Some v else assoc k rest
  end.

(** [type(v).__name__] *)
Definition type_name {T} (v : json T) : string :=
  match v with
  | JNull => "NoneType"
  | JBool _ => "bool"
  | JInt _ => "int"
  | JFloat _ => "float"
  | JStr _ => "str"
  | JList _ => "list"
  | JDict _ => "dict"
  end.

(** What [v.get(...)] raises when [v] is not a dict. *)
Definition no_attribute_get {T} (v : json T) : exn :=
  AttributeError ("'" ++ type_name v ++ "' object has no attribute 'get'").

(** [str(n)] for a natural number *)
Definition str_of_nat (n : nat) : string :=
  NilEmpty.string_of_uint (Nat.to_uint n).

(** ** String operations of the Python source *)

Definition lower_ascii (c : ascii) : ascii :=
  let n := nat_of_ascii c in
  if (Nat.leb 65 n && Nat.leb n 90)%bool then ascii_of_nat (n + 32) else c.

(** [s.lower()], on the ASCII letters *)
Fixpoint lower (s : string) : string :=
  match s with
  | EmptyString => EmptyString
  | String c s' => String (lower_ascii c) (lower s')
  end.

(** [needle in hay] *)
Fixpoint contains (needle hay : string) : bool :=
  if String.prefix needle hay then true
  else match hay with
       | EmptyString => false
       | String _ hay' => contains needle hay'
       end.

(** [s.endswith(suffix)] *)
Definition endswith (suffix s : string) : bool :=
  let n := String.length s in
  let k := String.length suffix in
  (Nat.leb k n && String.eqb (String.substring (n - k) k s) suffix)%bool.

(** [repr(s)]: a character of a string is read as its code point, below
    256.  The quote is the double quote when the string holds a single
    quote and no double quote, and the single quote otherwise; the quote and
    the backslash are escaped with a backslash, the tab, the line feed and
    the carriage return by their letters, and any other character that is
    not printable by its two hexadecimal digits. *)
Definition single_quote : ascii := ascii_of_nat 39.
Definition double_quote : ascii := ascii_of_nat 34.
Definition backslash : ascii := ascii_of_nat 92.

(** [chr(n).isprintable()] *)
Definition printable (c : ascii) : bool :=
  let n := nat_of_ascii c in
  ((Nat.leb 32 n && Nat.leb n 126)
   || (Nat.leb 161 n && negb (Nat.eqb n 173)))%bool.

Definition hex_digit (n : nat) : ascii :=
  nth n (list_ascii_of_string "0123456789abcdef") "0"%char.

Definition repr_char (quote c : ascii) : string :=
  let n := nat_of_ascii c in
  if (Ascii.eqb c quote || Ascii.eqb c backslash)%bool
  then String backslash (String c "")
  else if Nat.eqb n 9 then String backslash "t"
  else if Nat.eqb n 10 then String backslash "n"
  else if Nat.eqb n 13 then String backslash "r"
  else if printable c then String c ""
  else String backslash
         (String "x" (String (hex_digit (Nat.div n 16))
                        (String (hex_digit (Nat.modulo n 16)) ""))).

Fixpoint has_char (c : ascii) (s : string) : bool :=
  match s with
  | EmptyString => false
  | String c' s' => (Ascii.eqb c c' || has_char c s')%bool
  end.

Fixpoint repr_body (quote : ascii) (s : string) : string :=
  match s with
  | EmptyString => EmptyString
  | String c s' => repr_char quote c ++ repr_body quote s'
  end.

Definition py_repr (s : string) : string :=
  let quote :=
    if (has_char single_quote s && negb (has_char double_quote s))%bool
    then double_quote else single_quote in
  String quote (repr_body quote s ++ String quote "").

(** [repr(path)] for an [Optional[str]] *)
Definition repr_path (path : option string) : string :=
  match path with
  | None => "None"
  | Some p => py_repr p
  end.

(** ** Fonts ([app/fonts.py]) *)

Record font : Type := {
  font_path : string;
  font_size : Z
}.

(** The file system and the font loader, as [fonts.py] sees them. *)
Record font_env (T : Type) : Type := {
  os_path_isfile : string -> bool;
  os_path_isdir : string -> bool;
  os_path_basename : string -> string;
  os_path_join : string -> string -> string;
  (** [os.walk(base)]: each directory with its files, in walk order *)
  os_walk : string -> list (string * list string);
  (** [os.path.join(project_root, "fonts")] *)
  local_fonts_dir : string;
  (** [os.environ.get("WINDIR", "C:\Windows")] *)
  windows_dir : string;
  (** what [_load_fonts_config()] returns: the value read from
      [fonts_config.json] when it is truthy, [{}] when it is falsy or the
      file is absent or unreadable; read once and kept *)
  fonts_config : json T;
  (** [ImageFont.truetype(path, size)]: [Some exc] when it raises *)
  truetype : string -> Z -> option string
}.

Arguments os_path_isfile {T} _ _.
Arguments os_path_isdir {T} _ _.
Arguments os_path_basename {T} _ _.
Arguments os_path_join {T} _ _ _.
Arguments os_walk {T} _ _.
Arguments local_fonts_dir {T} _.
Arguments windows_dir {T} _.
Arguments fonts_config {T} _.
Arguments truetype {T} _ _ _.

Definition PREFERRED_FONTS_URDU : list string :=
  [ "Arial";
    "Noto Nastaliq Urdu";
    "Jameel Noori Nastaleeq";
    "Jameel Noori Nastaleeq Kasheeda";
    "Nafees Web Naskh";
    "Nafees Nastaleeq" ].

Definition PREFERRED_FONTS_EN : list string :=
  [ "Segoe UI"; "Arial"; "Roboto" ].

(** [d[k] = v] on a dict kept as its items: an existing key keeps its
    position and takes the new value, a new key goes last. *)
Fixpoint dict_set {A} (k : string) (v : A) (items : list (string * A))
  : list (string * A) :=
  match items with
  | [] => [(k, v)]
  | (k', v') :: rest =>
      if String.eqb k k' then (k', v) :: rest
      else (k', v') :: dict_set k v rest
  end.

Section Fonts.
Context {T : Type} (env : font_env T).

Definition _candidate_font_paths : list string :=
  let search_dirs :=
    ((if os_path_isdir env (local_fonts_dir env)
      then [local_fonts_dir env] else [])
     ++ [os_path_join env (windows_dir env) "Fonts"])%list in
  flat_map
    (fun base =>
       if os_path_isdir env base then
         flat_map
           (fun entry =>
              let '(root, files) := entry in
              map (os_path_join env root)
                  (filter (fun f => (endswith ".ttf" (lower f)
                                     || endswith ".otf" (lower f))%bool)
                          files))
           (os_walk env base)
       else [])
    search_dirs.

Definition _find_font_by_preferred_names (preferred : list string)
  : option string :=
  let candidates := _candidate_font_paths in
  let lower_map :=
    fold_left
      (fun m p => dict_set (lower (os_path_basename env p)) p m)
      candidates [] in
  let fix by_name (names : list string) : option string :=
    match names with
    | [] => None
    | name :: names' =>
        let name_lower := lower name in
        match find (fun kv => contains name_lower (fst kv)) lower_map with
        | Some (_, full) => Some full
        | None => by_name names'
        end
    end in
  by_name preferred.

(** [cfg.get(key)], which needs a dict, and
    [isinstance(cfg_path, str) and os.path.isfile(cfg_path)] *)
Definition configured_font (key : string) : outcome (option string) :=
  match fonts_config env with
  | JDict items =>
      Returned
        match assoc key items with
        | Some (JStr cfg_path) =>
            if os_path_isfile env cfg_path then Some cfg_path else None
        | _ => None
        end
  | cfg => Raised (no_attribute_get cfg)
  end.

Definition first_tagged (tags : list string) (candidates : list string)
  : option string :=
  find (fun p =>
          let base := lower (os_path_basename env p) in
          existsb (fun tag => contains tag base) tags)
       candidates.

Definition get_urdu_font_path (override_path : option string)
  : outcome (option string) :=
  if str_truthy override_path then Returned override_path
  else
    match configured_font "urdu_font_path" with
    | Raised e => Raised e
    | Returned (Some cfg_path) => Returned (Some cfg_path)
    | Returned None =>
        let path := _find_font_by_preferred_names PREFERRED_FONTS_URDU in
        if str_truthy path then Returned path
        else
          let candidates := _candidate_font_paths in
          match first_tagged ["arab"; "urdu"; "naskh"; "nastaliq"]
                             candidates with
          | Some p => Returned (Some p)
          | None => Returned (first_tagged ["arial"] candidates)
          end
    end.

Definition get_english_font_path (override_path : option string)
  : outcome (option string) :=
  if str_truthy override_path then Returned override_path
  else
    match configured_font "english_font_path" with
    | Raised e => Raised e
    | Returned (Some cfg_path) => Returned (Some cfg_path)
    | Returned None =>
        let path := _find_font_by_preferred_names PREFERRED_FONTS_EN in
        if str_truthy path then Returned path
        else Returned (first_tagged ["arial"] _candidate_font_paths)
    end.

Definition load_font (path : option string) (size : Z) : outcome font :=
  let missing :=
    Raised (RuntimeError
              ("Font path is missing or does not exist: "
               ++ repr_path path)) in
  match path with
  | Some p =>
      if (str_truthy path && os_path_isfile env p)%bool then
        match truetype env p size with
        | None => Returned {| font_path := p; font_size := size |}
        | Some exc =>
            Raised (RuntimeError
                      ("Failed to load font at " ++ p ++ ": " ++ exc))
        end
      else missing
  | None => missing
  end.
End Fonts.

(** ** Text layout *)

(** Modelled from the spec: [app/urdu_text.py] is not among the sources;
    lines break on whitespace runs, so the tokens are what [str.split()]
    gives on ASCII whitespace. *)
Definition is_space (c : ascii) : bool :=
  let n := nat_of_ascii c in
  (Nat.eqb n 32 || (Nat.leb 9 n && Nat.leb n 13))%bool.

Fixpoint split_from (current : string) (s : string) : list string :=
  match s with
  | EmptyString => if String.eqb current "" then [] else [current]
  | String c s' =>
      if is_space c then
        if String.eqb current "" then split_from "" s'
        else current :: split_from "" s'
      else split_from (current ++ String c "") s'
  end.

Definition split : string -> list string := split_from "".

Section TextLayout.
(** The measured pixel width of a line in the font at hand, and the width
    budget. *)
Variable width : string -> Z.
Variable max_width : Z.

(** Modelled from the spec: [app/urdu_text.py], which defines
    [wrap_text_ltr] and [wrap_text_rtl], is not among the sources.  The
    spec's greedy wrap: tokens are accumulated onto the current line while
    its measured width stays within [max_width]; when adding the next token
    would exceed it, a new line starts with that token. *)
Fixpoint wrap_onto (current : string) (tokens : list string) : list string :=
  match tokens with
  | [] => [current]
  | token :: rest =>
      let candidate := current ++ " " ++ token in
      if (width candidate <=? max_width)%Z then wrap_onto candidate rest
      else current :: wrap_onto token rest
  end.

(** Modelled from the spec: empty input yields an empty line sequence. *)
Definition wrap_tokens (tokens : list string) : list string :=
  match tokens with
  | [] => []
  | token :: rest => wrap_onto token rest
  end.

(** Modelled from the spec: both directions break on whitespace runs, in
    logical order; the direction matters to shaping only. *)
Definition wrap_text_ltr (text : string) : list string :=
  wrap_tokens (split text).

Definition wrap_text_rtl (text : string) : list string :=
  wrap_tokens (split text).
End TextLayout.

(** [" ".join(tokens)] *)
Fixpoint join_spaces (tokens : list string) : string :=
  match tokens with
  | [] => ""
  | [t] => t
  | t :: rest => t ++ " " ++ join_spaces rest
  end.

(** ** Video composer ([app/video_composer.py]) *)

Definition VIDEO_WIDTH : Z := 1080.
Definition VIDEO_HEIGHT : Z := 1920.
Definition FPS : Z := 24.
(** [DEFAULT_CAPTION_STYLE.en_font_size], [.ur_font_size], and the
    supersampling factor of [render_caption_frame] *)
Definition en_font_size : Z := 54.
Definition ur_font_size : Z := 64.
Definition scale : Z := 2.

Inductive language : Type := English | Urdu.

Section Composer.
Context {T : Type} `{PyFloat T}.

Record TTSAudio : Type := {
  path : string;
  duration : T
}.

(** A rendered caption frame, by what determines its pixels: the
    background, the entry of the script and the two fonts.  Layout and
    drawing are functions of these. *)
Record frame : Type := {
  frame_background : string;
  frame_pair : json T;
  frame_en_font : font;
  frame_ur_font : font
}.

(** [AudioFileClip(path).set_start(start).volumex(volume)] *)
Record audio_track : Type := {
  track_path : string;
  track_duration : T;
  track_start : T;
  track_volume : Q
}.

(** One segment's clip: the still frame with its duration, the tracks of
    its sound (none for a clip without sound), and the fades applied to
    sound and picture. *)
Record clip : Type := {
  clip_frame : frame;
  clip_duration : T;
  clip_audio : list audio_track;
  clip_audio_fade : Q * Q;
  clip_fade : Q * Q
}.

(** The background music as it is mixed in. *)
Record music : Type := {
  music_path : string;
  (** length of the file as decoded *)
  music_material : T;
  (** length of the track after [subclip] *)
  music_duration : T;
  music_volume : T
}.

Inductive soundtrack : Type :=
| Silent
| Speech
| SpeechAndMusic (bgm : music)
| MusicOnly (bgm : music).

(** The composite [concatenate_videoclips] builds: every clip with its
    start time, and the total duration. *)
Record timeline : Type := {
  tl_clips : list (T * clip);
  tl_duration : T;
  tl_fps : option Z;
  tl_size : option (Z * Z);
  tl_audio : soundtrack
}.

Inductive sink_result : Type :=
| Written
(** the encoder raised; [partial] tells whether it had already created
    the file it was writing *)
| Failed (e : exn) (partial : bool).

(** The collaborators of [build_video]. *)
Record world : Type := {
  (** [open(path)] and [json.load] *)
  json_load : string -> outcome (json T);
  (** [float(s)] on a string *)
  float_of_str : string -> option T;
  ensure_temp_dirs : option exn;
  prepare_background_image : string -> outcome string;
  (** the solid fill saved to a temporary image *)
  fallback_background : outcome string;
  generate_english_tts : json T -> outcome TTSAudio;
  generate_urdu_tts : json T -> outcome TTSAudio;
  (** [Image.open(background_path)] in [render_caption_frame] *)
  image_open : string -> option exn;
  fonts : font_env T;
  (** [AudioFileClip(path)], by the duration of the clip *)
  AudioFileClip : string -> outcome T;
  (** [final.write_videofile(output_path, ...)] *)
  write_videofile : timeline -> sink_result
}.

(** What a run does to the outside, in order: the temporary directories
    are made; the background is prepared from [source], or filled; the
    [log] callback is called; speech synthesis is asked for a text; a frame
    is rendered; the encoder creates the file at a path; the encoder
    completes it. *)
Inductive event : Type :=
| TempDirs
| Background (source : option string)
| Log (msg : string)
| Tts (lang : language) (text : json T)
| Render (f : frame)
| WriteOpen (output_path : string)
| WriteDone (output_path : string) (final : timeline).

(** A computation appends to the trace of events and returns or raises;
    what happened before an exception stays. *)
Definition M (A : Type) : Type := list event -> list event * outcome A.

Definition ret {A} (a : A) : M A := fun tr => (tr, Returned a).

Definition raise {A} (e : exn) : M A := fun tr => (tr, Raised e).

Definition bind {A B} (c : M A) (k : A -> M B) : M B :=
  fun tr =>
    match c tr with
    | (tr', Returned a) => k a tr'
    | (tr', Raised e) => (tr', Raised e)
    end.

Definition emit (ev : event) : M unit :=
  fun tr => ((tr ++ [ev])%list, Returned tt).

(** The answer of a collaborator. *)
Definition call {A} (o : outcome A) : M A := fun tr => (tr, o).

(** A collaborator that returns nothing. *)
Definition check (o : option exn) : M unit :=
  match o with
  | None => ret tt
  | Some e => raise e
  end.

(** [try: c except Exception as e: h(e)] *)
Definition try_except {A} (c : M A) (h : exn -> M A) : M A :=
  fun tr =>
    match c tr with
    | (tr', Returned a) => (tr', Returned a)
    | (tr', Raised e) => h e tr'
    end.
End Composer.

Arguments TTSAudio T : clear implicits.
Arguments frame T : clear implicits.
Arguments audio_track T : clear implicits.
Arguments clip T : clear implicits.
Arguments music T : clear implicits.
Arguments soundtrack T : clear implicits.
Arguments timeline T : clear implicits.
Arguments world T : clear implicits.
Arguments event T : clear implicits.
Arguments M T A : clear implicits.

Declare Scope py_scope.
Delimit Scope py_scope with py.
Notation "x <- c ;; k" := (bind c (fun x => k))
  (at level 61, c at next level, right associativity) : py_scope.
Notation "c ;;; k" := (bind c (fun _ => k))
  (at level 61, right associativity) : py_scope.

Local Open Scope py_scope.

Section BuildVideo.
Context {T : Type} `{PyFloat T} (w : world T).

(** [bool(v)] *)
Definition py_truthy (v : json T) : bool :=
  match v with
  | JNull => false
  | JBool b => b
  | JInt n => negb (n =? 0)%Z
  | JFloat x => ftruthy x
  | JStr s => negb (String.eqb s "")
  | JList l => match l with [] => false | _ => true end
  | JDict items => match items with [] => false | _ => true end
  end.

(** [float(v)] *)
Definition py_float (v : json T) : outcome T :=
  match v with
  | JFloat x => Returned x
  | JInt n =>
      match f_of_int n with
      | Some x => Returned x
      | None => Raised (OverflowError "int too large to convert to float")
      end
  | JBool b =>
      match f_of_int (if b then 1 else 0)%Z with
      | Some x => Returned x
      | None => Raised (OverflowError "int too large to convert to float")
      end
  | JStr s =>
      match float_of_str w s with
      | Some x => Returned x
      | None =>
          Raised (ValueError
                    ("could not convert string to float: " ++ py_repr s))
      end
  | JNull | JList _ | JDict _ =>
      Raised (TypeError
                ("float() argument must be a string or a real number, not '"
                 ++ type_name v ++ "'"))
  end.

(** [pair.get(key, default)] *)
Definition pair_get (pair : json T) (key : string) (default : json T)
  : outcome (json T) :=
  match pair with
  | JDict items =>
      Returned (match assoc key items with
                | Some v => v
                | None => default
                end)
  | _ => Raised (no_attribute_get pair)
  end.

(** [float(pair.get(key, 0.0) or 0.0)] *)
Definition float_or_zero (pair : json T) (key : string) : outcome T :=
  match pair_get pair key (JFloat fzero) with
  | Returned v => py_float (if py_truthy v then v else JFloat fzero)
  | Raised e => Raised e
  end.

Definition _load_script (path : string) : M T (list (json T)) :=
  data <- call (json_load w path) ;;
  match data with
  | JList segments => ret segments
  | _ => raise (ValueError "Script must be a list of {en, ur} objects")
  end.

Definition render_caption_frame
    (background_path : string) (pair : json T)
    (english_font_path urdu_font_path : option string) : M T (frame T) :=
  check (image_open w background_path) ;;;
  en_font_path_resolved <-
    call (get_english_font_path (fonts w) english_font_path) ;;
  ur_font_path_resolved <-
    call (get_urdu_font_path (fonts w) urdu_font_path) ;;
  en_font_scaled <-
    call (load_font (fonts w) en_font_path_resolved (en_font_size * scale)) ;;
  ur_font_scaled <-
    call (load_font (fonts w) ur_font_path_resolved (ur_font_size * scale)) ;;
  let f := {| frame_background := background_path;
              frame_pair := pair;
              frame_en_font := en_font_scaled;
              frame_ur_font := ur_font_scaled |} in
  emit (Render f) ;;;
  ret f.

(** [ImageClip(img_array).set_duration(d)] *)
Definition image_clip (img : frame T) (d : T) : clip T :=
  {| clip_frame := img;
     clip_duration := d;
     clip_audio := [];
     clip_audio_fade := (0, 0);
     clip_fade := (0, 0) |}.

(** [c.set_audio(CompositeAudioClip(tracks).audio_fadein(a).audio_fadeout(b))] *)
Definition clip_set_audio (c : clip T) (tracks : list (audio_track T))
    (fades : Q * Q) : clip T :=
  {| clip_frame := clip_frame c;
     clip_duration := clip_duration c;
     clip_audio := tracks;
     clip_audio_fade := fades;
     clip_fade := clip_fade c |}.

(** [c.fadein(d)] and [c.fadeout(d)] filter the picture over the first and
    the last [d] seconds of the clip. *)
Definition fadein (d : Q) (c : clip T) : clip T :=
  {| clip_frame := clip_frame c;
     clip_duration := clip_duration c;
     clip_audio := clip_audio c;
     clip_audio_fade := clip_audio_fade c;
     clip_fade := (d, snd (clip_fade c)) |}.

Definition fadeout (d : Q) (c : clip T) : clip T :=
  {| clip_frame := clip_frame c;
     clip_duration := clip_duration c;
     clip_audio := clip_audio c;
     clip_audio_fade := clip_audio_fade c;
     clip_fade := (fst (clip_fade c), d) |}.

(** The body of the loop over [enumerate(segments, start=1)]. *)
Definition build_segment
    (log : bool) (n_segments : nat) (bg_final : string)
    (english_font_path urdu_font_path : option string)
    (idx : nat) (pair : json T) : M T (clip T) :=
  (if log then
     emit (Log ("[segment " ++ str_of_nat idx ++ "/" ++ str_of_nat n_segments
                ++ "] Generating audio and frame..."))
   else ret tt) ;;;
  en_text <- call (pair_get pair "en" (JStr "")) ;;
  ur_text <- call (pair_get pair "ur" (JStr "")) ;;
  emit (Tts English en_text) ;;;
  en_tts <- call (generate_english_tts w en_text) ;;
  emit (Tts Urdu ur_text) ;;;
  ur_tts <- call (generate_urdu_tts w ur_text) ;;
  pause_after <- call (float_or_zero pair "pause_after") ;;
  min_duration <- call (float_or_zero pair "min_duration") ;;
  let t := schedule (duration en_tts) (duration ur_tts)
                    pause_after min_duration in
  frame_img <- render_caption_frame bg_final pair
                 english_font_path urdu_font_path ;;
  en_audio_clip <- call (AudioFileClip w (path en_tts)) ;;
  ur_audio_clip <- call (AudioFileClip w (path ur_tts)) ;;
  let en_track := {| track_path := path en_tts;
                     track_duration := en_audio_clip;
                     track_start := en_start t;
                     track_volume := 1.0 |} in
  let ur_track := {| track_path := path ur_tts;
                     track_duration := ur_audio_clip;
                     track_start := ur_start t;
                     track_volume := 1.0 |} in
  let img_clip := image_clip frame_img (total_audio_duration t) in
  let mixed_audio := [en_track; ur_track] in
  let c := clip_set_audio img_clip mixed_audio (0.12, 0.12) in
  let c := fadeout 0.5 (fadein 0.5 c) in
  ret c.

Fixpoint build_clips
    (log : bool) (n_segments : nat) (bg_final : string)
    (english_font_path urdu_font_path : option string)
    (idx : nat) (segments : list (json T)) : M T (list (clip T)) :=
  match segments with
  | [] => ret []
  | p :: rest =>
      c <- build_segment log n_segments bg_final
             english_font_path urdu_font_path idx p ;;
      cs <- build_clips log n_segments bg_final
              english_font_path urdu_font_path (S idx) rest ;;
      ret (c :: cs)
  end.

(** [c.audio is not None] *)
Definition has_audio (c : clip T) : bool :=
  match clip_audio c with
  | [] => false
  | _ => true
  end.

(** [concatenate_videoclips(clips, method="compose")]: the start times
    are the running sums of the durations, the last sum is the duration
    of the whole; the result has sound when one of the clips has. *)
Fixpoint place (t : T) (clips : list (clip T)) : list (T * clip T) * T :=
  match clips with
  | [] => ([], t)
  | c :: rest =>
      let '(placed, t_end) := place (fadd t (clip_duration c)) rest in
      ((t, c) :: placed, t_end)
  end.

Definition concatenate_videoclips (clips : list (clip T)) : timeline T :=
  let '(placed, t_end) := place fzero clips in
  {| tl_clips := placed;
     tl_duration := t_end;
     tl_fps := None;
     tl_size := None;
     tl_audio := if existsb has_audio clips then Speech else Silent |}.

(** [final.set_fps(FPS).resize((VIDEO_WIDTH, VIDEO_HEIGHT))] *)
Definition normalize (final : timeline T) : timeline T :=
  {| tl_clips := tl_clips final;
     tl_duration := tl_duration final;
     tl_fps := Some FPS;
     tl_size := Some (VIDEO_WIDTH, VIDEO_HEIGHT);
     tl_audio := tl_audio final |}.

Definition set_audio (final : timeline T) (a : soundtrack T) : timeline T :=
  {| tl_clips := tl_clips final;
     tl_duration := tl_duration final;
     tl_fps := tl_fps final;
     tl_size := tl_size final;
     tl_audio := a |}.

(** [int(video_duration / bgm_audio.duration) + 1].  [video_duration] is
    [final.duration], a [numpy.float64]: dividing it by zero raises nothing
    and gives an infinity, or a NaN when it is zero or a NaN itself, and
    [int] raises on either. *)
Definition loops_needed (video_duration bgm_duration : T) : outcome Z :=
  match fdiv video_duration bgm_duration with
  | None => Raised (int_error video_duration)
  | Some q =>
      match py_int q with
      | Returned k => Returned (k + 1)%Z
      | Raised e => Raised e
      end
  end.

(** The statements under [try:].  [moviepy.editor] gives [loop] to the
    video clips alone (an audio clip has [audio_loop]), so that
    [bgm_audio.loop(n=loops_needed)] raises once the number of copies is
    computed.  [subclip(0, video_duration)] gives the track the length
    [video_duration - 0]. *)
Definition add_bgm (final : timeline T) (bgm_path : string) (bgm_volume : T)
  : M T (timeline T) :=
  bgm_duration <- call (AudioFileClip w bgm_path) ;;
  let video_duration := tl_duration final in
  (if flt bgm_duration video_duration then
     call (loops_needed video_duration bgm_duration) ;;;
     raise (AttributeError
              "'AudioFileClip' object has no attribute 'loop'")
   else ret tt) ;;;
  let bgm_audio := {| music_path := bgm_path;
                      music_material := bgm_duration;
                      music_duration := video_duration;
                      music_volume := bgm_volume |} in
  match tl_audio final with
  | Silent => ret (set_audio final (MusicOnly bgm_audio))
  | _ => ret (set_audio final (SpeechAndMusic bgm_audio))
  end.

(** The block [if bgm_path: try: ... except Exception as e: ...]. *)
Definition mix_bgm (final : timeline T) (bgm_path : option string)
    (bgm_volume : T) (log : bool) : M T (timeline T) :=
  match bgm_path with
  | Some p =>
      if str_truthy bgm_path then
        try_except
          (add_bgm final p bgm_volume)
          (fun e =>
             (if log then
                emit (Log ("Warning: Could not add BGM: " ++ exn_str e))
              else ret tt) ;;;
             ret final)
      else ret final
  | None => ret final
  end.

(** [final.write_videofile(output_path, ...)] and [return output_path]:
    the sink writes to the path it is given. *)
Definition write_output (final : timeline T) (output_path : string)
  : M T string :=
  match write_videofile w final with
  | Written =>
      emit (WriteOpen output_path) ;;;
      emit (WriteDone output_path final) ;;;
      ret output_path
  | Failed e partial =>
      (if partial then emit (WriteOpen output_path) else ret tt) ;;;
      raise e
  end.

(** The background: the prepared image, or the solid fill. *)
Definition background (background_path : option string) : M T string :=
  match background_path with
  | Some p =>
      if str_truthy background_path then
        emit (Background (Some p)) ;;;
        call (prepare_background_image w p)
      else
        emit (Background None) ;;;
        call (fallback_background w)
  | None =>
      emit (Background None) ;;;
      call (fallback_background w)
  end.

Definition build_video
    (script_path output_path : string)
    (background_path english_font_path urdu_font_path bgm_path
       : option string)
    (bgm_volume : T) (log : bool) : M T string :=
  segments <- _load_script script_path ;;
  match segments with
  | [] => raise (ValueError "Script is empty")
  | _ =>
      check (ensure_temp_dirs w) ;;;
      emit TempDirs ;;;
      bg_final <- background background_path ;;
      clips <- build_clips log (List.length segments) bg_final
                 english_font_path urdu_font_path 1 segments ;;
      let final := normalize (concatenate_videoclips clips) in
      final <- mix_bgm final bgm_path bgm_volume log ;;
      write_output final output_path
  end.
End BuildVideo.

(** What a run leaves behind. *)
Section Observations.
Context {T : Type}.

Definition run {A} (c : M T A) : list (event T) * outcome A := c [].

(** The messages the [log] callback received, in order. *)
Fixpoint logged (tr : list (event T)) : list string :=
  match tr with
  | [] => []
  | Log msg :: tr' => msg :: logged tr'
  | _ :: tr' => logged tr'
  end.

Inductive file_state : Type :=
| Absent
| Partial
| Complete (final : timeline T).

(** The file at [output_path] after the events of [tr], from the state
    [st] before them. *)
Fixpoint file_after (output_path : string) (tr : list (event T))
    (st : file_state) : file_state :=
  match tr with
  | [] => st
  | WriteOpen p :: tr' =>
      file_after output_path tr'
        (if String.eqb p output_path then Partial else st)
  | WriteDone p final :: tr' =>
      file_after output_path tr'
        (if String.eqb p output_path then Complete final else st)
  | _ :: tr' => file_after output_path tr' st
  end.
End Observations.

Arguments file_state T : clear implicits.

(** * Vocabulary of the properties *)

Section Vocabulary.
Context {T : Type} `{PyFloat T} (w : world T).

(** A computation is regular when it only appends to the trace and does
    not depend on what the trace already holds. *)
Definition regular {A} (c : M T A) : Prop :=
  forall tr, c tr = ((tr ++ fst (c []))%list, snd (c [])).

(** Every event a computation appends satisfies [P]. *)
Definition emits (P : event T -> Prop) {A} (c : M T A) : Prop :=
  Forall P (fst (c [])).

(** Events that leave the destination of the video alone. *)
Definition not_write (ev : event T) : Prop :=
  match ev with
  | WriteOpen _ | WriteDone _ _ => False
  | _ => True
  end.

(** Clips laid end to end from time [t]: each starts where the one before
    it ends, and the last ends at [t_end]. *)
Inductive contiguous : T -> list (T * clip T) -> T -> Prop :=
| contiguous_end t : contiguous t [] t
| contiguous_next t c rest t_end :
    contiguous (fadd t (clip_duration c)) rest t_end ->
    contiguous t ((t, c) :: rest) t_end.

(** [c] is the clip of the script entry [pair]: it lasts what the segment
    timer computes from the two speech durations and the entry's pause and
    floor, and its two tracks start at the scheduled offsets. *)
Definition segment_clip (pair : json T) (c : clip T) : Prop :=
  exists en_text ur_text en_tts ur_tts pause_after min_duration,
    pair_get pair "en" (JStr "") = Returned en_text /\
    pair_get pair "ur" (JStr "") = Returned ur_text /\
    generate_english_tts w en_text = Returned en_tts /\
    generate_urdu_tts w ur_text = Returned ur_tts /\
    float_or_zero w pair "pause_after" = Returned pause_after /\
    float_or_zero w pair "min_duration" = Returned min_duration /\
    clip_duration c
    = total_audio_duration
        (schedule (duration en_tts) (duration ur_tts)
                  pause_after min_duration) /\
    map track_start (clip_audio c)
    = [fzero; ur_start (schedule (duration en_tts) (duration ur_tts)
                                 pause_after min_duration)].

(** Everything [build_video] does before it turns to the music: the
    script, the background and one clip per entry. *)
Definition gather_clips
    (script_path : string)
    (background_path english_font_path urdu_font_path : option string)
    (log : bool) : M T (list (clip T)) :=
  segments <- _load_script w script_path ;;
  match segments with
  | [] => raise (ValueError "Script is empty")
  | _ =>
      check (ensure_temp_dirs w) ;;;
      emit TempDirs ;;;
      bg_final <- background w background_path ;;
      build_clips w log (List.length segments) bg_final
        english_font_path urdu_font_path 1 segments
  end.

(** The timeline handed to the music stage. *)
Definition assembled (clips : list (clip T)) : timeline T :=
  normalize (concatenate_videoclips clips).

(** [final] with the music [bgm] mixed over its own sound, or alone when
    [final] has none. *)
Definition mixed (final : timeline T) (bgm : music T) : timeline T :=
  set_audio final
    (match tl_audio final with
     | Silent => MusicOnly bgm
     | _ => SpeechAndMusic bgm
     end).

End Vocabulary.

(** A string that [repr] writes as it is, between single quotes: printable
    characters, no single quote and no backslash. *)
Definition plain_char (c : ascii) : bool :=
  (printable c && negb (Ascii.eqb c single_quote)
   && negb (Ascii.eqb c backslash))%bool.

Fixpoint plain (s : string) : bool :=
  match s with
  | EmptyString => true
  | String c s' => (plain_char c && plain s')%bool
  end.

(** The line that holds [current] and then every token of [rest]. *)
Definition line_with (current : string) (rest : list string) : string :=
  fold_left (fun line token => line ++ " " ++ token) rest current.

(** ** A concrete setting *)

(** POSIX [os.path.basename] and [os.path.join]. *)
Fixpoint basename_from (current : string) (s : string) : string :=
  match s with
  | EmptyString => current
  | String c s' =>
      if Ascii.eqb c "/"%char then basename_from "" s'
      else basename_from (current ++ String c "") s'
  end.

Definition posix_basename : string -> string := basename_from "".

Definition posix_join (a b : string) : string :=
  if String.prefix "/" b then b
  else if (String.eqb a "" || endswith "/" a)%bool then a ++ b
  else a ++ "/" ++ b.

Definition one_of (known : list string) (p : string) : bool :=
  existsb (String.eqb p) known.

(** A machine with two font files under the project, one of them a
    Nastaliq face, and Arial among the system fonts; [config] is the
    content of [fonts_config.json]. *)
Definition demo_fonts (config : list (string * json Q)) : font_env Q :=
  {| os_path_isfile :=
       one_of ["/app/fonts/en.ttf"; "/app/fonts/NotoNastaliqUrdu.ttf";
               "/win/Fonts/arial.ttf"];
     os_path_isdir := one_of ["/app/fonts"; "/win/Fonts"];
     os_path_basename := posix_basename;
     os_path_join := posix_join;
     os_walk := fun base =>
       if String.eqb base "/app/fonts"
       then [("/app/fonts", ["en.ttf"; "NotoNastaliqUrdu.ttf"])]
       else if String.eqb base "/win/Fonts"
       then [("/win/Fonts", ["arial.ttf"; "readme.txt"])]
       else [];
     local_fonts_dir := "/app/fonts";
     windows_dir := "/win";
     fonts_config := JDict config;
     truetype := fun _ _ => None |}.

Definition demo_entry : json Q :=
  JDict [("en", JStr "Hi"); ("ur", JStr "salam")].

Definition demo_script : json Q := JList [demo_entry].

(** Two entries, the second with a pause and a floor. *)
Definition demo_lesson : json Q :=
  JList [demo_entry;
         JDict [("en", JStr "Thanks"); ("ur", JStr "shukriya");
                ("pause_after", JInt 1); ("min_duration", JFloat 5.0)]].

(** A machine where speech synthesis answers every text: 1.0 s of English
    and 1.2 s of Urdu; [music.mp3] lasts 1 s, [long.mp3] 10 s and any other
    music file does not decode. *)
Definition demo_world (script : json Q) (sink : sink_result) : world Q :=
  {| json_load := fun _ => Returned script;
     float_of_str := fun _ => None;
     ensure_temp_dirs := None;
     prepare_background_image := fun _ => Returned "temp/images/bg_final.jpg";
     fallback_background := Returned "temp/images/fallback_bg.jpg";
     generate_english_tts := fun _ =>
       Returned {| path := "temp/audio/en.mp3"; duration := 1.0 |};
     generate_urdu_tts := fun _ =>
       Returned {| path := "temp/audio/ur.mp3"; duration := 1.2 |};
     image_open := fun _ => None;
     fonts := demo_fonts [];
     AudioFileClip := fun p =>
       if String.eqb p "temp/audio/en.mp3" then Returned 1.0
       else if String.eqb p "temp/audio/ur.mp3" then Returned 1.2
       else if String.eqb p "music.mp3" then Returned 1
       else if String.eqb p "long.mp3" then Returned 10
       else Raised (OSError "could not decode the audio file");
     write_videofile := fun _ => sink |}.

(** A timeline of one silent 2.4 s clip. *)
Definition demo_timeline : timeline Q :=
  assembled
    [image_clip
       {| frame_background := "temp/images/fallback_bg.jpg";
          frame_pair := demo_entry;
          frame_en_font := {| font_path := "/app/fonts/en.ttf";
                              font_size := 108 |};
          frame_ur_font := {| font_path := "/app/fonts/NotoNastaliqUrdu.ttf";
                              font_size := 128 |} |}
       2.4].

Definition demo_run (script : json Q) (sink : sink_result)
    (urdu_font_path bgm_path : option string) (log : bool)
  : list (event Q) * outcome string :=
  run (build_video (demo_world script sink) "script.json" "out.mp4"
         None (Some "/app/fonts/en.ttf") urdu_font_path bgm_path 0.1 log).

(** A font in which every character is one pixel wide. *)
Definition char_width (line : string) : Z := Z.of_nat (String.length line).

(** * More of the code *)

(** ** Command line ([app/cli.py]) *)

(** What [parser.parse_args()] returns; [output] is [output.mp4] when the
    option is not given. *)
Record cli_args : Type := {
  script : string;
  output : string;
  background_arg : option string;
  no_cleanup : bool;
  english_font : option string;
  urdu_font : option string
}.

(** What the command does to the outside: a line that [main] or its
    [_log] prints, an event of the render, the removal of the temporary
    files by [cleanup_temp], which swallows its own errors.  The libraries
    write to the same stream as [print]: the encoder reports its progress
    there while it runs, from the event [WriteOpen] of the render to
    [WriteDone].  What they write is not kept. *)
Inductive cli_event : Type :=
| Print (line : string)
| Build (ev : event Q)
| CleanupTemp.

(** The render's events as the command's: [_log] prints the message. *)
Definition cli_build_event (ev : event Q) : cli_event :=
  match ev with
  | Log msg => Print msg
  | _ => Build ev
  end.

(** [main()].  [build_video] is called with [log=_log] and without music;
    [bgm_volume] keeps its default. *)
Definition main (w : world Q) (args : cli_args)
  : list cli_event * outcome unit :=
  let started := [Print "[info] Starting video build..."] in
  let finally := if no_cleanup args then [] else [CleanupTemp] in
  match run (build_video w (script args) (output args) (background_arg args)
               (english_font args) (urdu_font args) None 0.1 true) with
  | (tr, Returned _) =>
      ((started ++ map cli_build_event tr
        ++ [Print ("[info] Video written to " ++ output args)%string]
        ++ finally)%list,
       Returned tt)
  | (tr, Raised e) =>
      ((started ++ map cli_build_event tr ++ finally)%list, Raised e)
  end.

(** The lines the command itself prints, in order. *)
Fixpoint printed (evs : list cli_event) : list string :=
  match evs with
  | [] => []
  | Print line :: evs' => line :: printed evs'
  | _ :: evs' => printed evs'
  end.

(** The events during which the encoder runs. *)
Definition encoder_runs (ev : cli_event) : Prop :=
  match ev with
  | Build (WriteOpen _) | Build (WriteDone _ _) => True
  | _ => False
  end.

(** ** Float operations of the image geometry *)

Class PyFloatGeometry (T : Type) `{PyFloat T} : Type := {
  (** the literals [0.01], [0.4] and [0.86] *)
  lit_0_01 : T;
  lit_0_4 : T;
  lit_0_86 : T;
  (** [a - b] *)
  fsub : T -> T -> T;
  (** [a * b] *)
  fmul : T -> T -> T;
  (** [abs(a)] *)
  fabs : T -> T
}.

#[export] Instance PyFloatGeometry_Q : PyFloatGeometry Q := {
  lit_0_01 := 0.01;
  lit_0_4 := 0.4;
  lit_0_86 := 0.86;
  fsub := Qminus;
  fmul := Qmult;
  fabs := Qabs.Qabs
}.

#[export] Instance PyFloatGeometry_binary64 : PyFloatGeometry float := {
  lit_0_01 := 0x1.47ae147ae147bp-7%float;
  lit_0_4 := 0x1.999999999999ap-2%float;
  lit_0_86 := 0x1.b851eb851eb85p-1%float;
  fsub := PrimFloat.sub;
  fmul := PrimFloat.mul;
  fabs := PrimFloat.abs
}.

Section ImageGeometry.
Context {T : Type} `{PyFloatGeometry T}.

(** [float(n)] where an int meets a float in an operation *)
Definition to_float (n : Z) : outcome T :=
  match f_of_int n with
  | Some x => Returned x
  | None => Raised (OverflowError "int too large to convert to float")
  end.

(** [a / b] on floats *)
Definition true_div (a b : T) : outcome T :=
  match fdiv a b with
  | Some q => Returned q
  | None => Raised (ZeroDivisionError "float division by zero")
  end.

Definition outcome_bind {A B} (c : outcome A) (k : A -> outcome B)
  : outcome B :=
  match c with
  | Returned a => k a
  | Raised e => Raised e
  end.

(** ** Background fit ([app/backgrounds.py]) *)

(** What [prepare_background_image] asks of the image library: the size
    passed to [img.resize] and the box passed to [crop], when it crops. *)
Record fit : Type := {
  resize_to : Z * Z;
  crop_box : option (Z * Z * Z * Z)
}.

(** The size of the image that is saved. *)
Definition saved_size (g : fit) : Z * Z :=
  match crop_box g with
  | Some (x1, y1, x2, y2) => (x2 - x1, y2 - y1)%Z
  | None => resize_to g
  end.

(** [a / b] on two ints.  Below 2^53 in size, as the sides of an image
    are, an int is exact as a float and the quotient is the float
    quotient. *)
Definition int_true_div (a b : Z) : outcome T :=
  if (b =? 0)%Z then Raised (ZeroDivisionError "division by zero")
  else
    outcome_bind (to_float a) (fun x =>
    outcome_bind (to_float b) (fun y =>
    true_div x y)).

(** [prepare_background_image], from [img.size] to the resize and the
    crop. *)
Definition background_fit (src_w src_h : Z) : outcome fit :=
  outcome_bind (int_true_div VIDEO_WIDTH VIDEO_HEIGHT) (fun target_ratio =>
  outcome_bind (int_true_div src_w src_h) (fun src_ratio =>
  if flt (fabs (fsub src_ratio target_ratio)) lit_0_01 then
    Returned {| resize_to := (VIDEO_WIDTH, VIDEO_HEIGHT);
                crop_box := None |}
  else if flt target_ratio src_ratio then
    let new_height := VIDEO_HEIGHT in
    outcome_bind (to_float new_height) (fun fnh =>
    outcome_bind (py_int (fmul fnh src_ratio)) (fun new_width =>
    let left := ((new_width - VIDEO_WIDTH) / 2)%Z in
    Returned {| resize_to := (new_width, new_height);
                crop_box :=
                  Some (left, 0%Z, (left + VIDEO_WIDTH)%Z, VIDEO_HEIGHT) |}))
  else
    let new_width := VIDEO_WIDTH in
    outcome_bind (to_float new_width) (fun fnw =>
    outcome_bind (true_div fnw src_ratio) (fun q =>
    outcome_bind (py_int q) (fun new_height =>
    let top := ((new_height - VIDEO_HEIGHT) / 2)%Z in
    Returned {| resize_to := (new_width, new_height);
                crop_box :=
                  Some (0%Z, top, VIDEO_WIDTH, (top + VIDEO_HEIGHT)%Z) |})))
  )).

(** ** Caption card ([app/caption_renderer.py]) *)

(** [DEFAULT_CAPTION_STYLE.box_padding] and [.line_spacing] *)
Definition box_padding : Z := 30.
Definition line_spacing : Z := 8.

(** [int(VIDEO_WIDTH * style.box_width_ratio) - 2 * style.box_padding],
    times [scale] *)
Definition max_box_width_scaled : outcome Z :=
  outcome_bind (to_float VIDEO_WIDTH) (fun vw =>
  outcome_bind (py_int (fmul vw lit_0_86)) (fun n =>
  let max_box_width := (n - 2 * box_padding)%Z in
  Returned (max_box_width * scale)%Z)).

(** The box passed to [_draw_rounded_rectangle_with_shadow]. *)
Record card : Type := {
  box_left_s : Z;
  box_top_s : Z;
  box_right_s : Z;
  box_bottom_s : Z
}.

(** [render_caption_frame], from the measured sizes of the two wrapped
    texts to the box of the card, on the canvas of twice the frame. *)
Definition caption_card (en_size ur_size : Z * Z) : outcome card :=
  let '(en_w_s, en_h_s) := en_size in
  let '(ur_w_s, ur_h_s) := ur_size in
  let content_width_s := Z.max en_w_s ur_w_s in
  let content_height_s :=
    (en_h_s + ur_h_s + (line_spacing * scale) * 2)%Z in
  let box_width_s := (content_width_s + (box_padding * scale) * 2)%Z in
  let box_height_s := (content_height_s + (box_padding * scale) * 2)%Z in
  let box_left_s := ((VIDEO_WIDTH * scale - box_width_s) / 2)%Z in
  outcome_bind (to_float (VIDEO_HEIGHT * scale)%Z) (fun vh =>
  outcome_bind (py_int (fmul vh lit_0_4)) (fun y =>
  let box_top_s := (y - box_height_s / 2)%Z in
  let box_right_s := (box_left_s + box_width_s)%Z in
  let box_bottom_s := (box_top_s + box_height_s)%Z in
  Returned {| box_left_s := box_left_s;
              box_top_s := box_top_s;
              box_right_s := box_right_s;
              box_bottom_s := box_bottom_s |})).
End ImageGeometry.

(** Where a line of width [w] is drawn: [x] of [text_draw.text]. *)
Definition line_x (w : Z) : Z :=
  ((VIDEO_WIDTH * scale) / 2 - w / 2)%Z.

(** ** Script generation ([app/gemini_script.py]) *)

(** What the prompt is made of: the topic, the level and the script type
    as they are written into it, which of the two instructions is
    formatted in, and the number it is formatted with. *)
Record prompt : Type := {
  prompt_topic : string;
  prompt_level : string;
  prompt_script_type : string;
  prompt_words : bool;
  prompt_num_pairs : Z
}.

(** The process environment, the Gemini client and the string methods
    that depend on the Unicode tables, as [gemini_script.py] sees them. *)
Record gemini_env (T : Type) : Type := {
  (** [os.environ.get("GOOGLE_API_KEY")] *)
  environ_api_key : option string;
  (** [_load_api_key_from_env_file()] *)
  _load_api_key_from_env_file : option string;
  (** [model.generate_content(prompt).text] *)
  generate_content : prompt -> outcome string;
  (** [json.loads(text)]: the value, or [str(exc)] of the
      [JSONDecodeError] *)
  json_loads : string -> json T + string;
  (** [s.strip()] *)
  str_strip : string -> string;
  (** [str(v)] of a value that is not a string *)
  str_of : json T -> string
}.

Arguments environ_api_key {T} _.
Arguments _load_api_key_from_env_file {T} _.
Arguments generate_content {T} _ _.
Arguments json_loads {T} _ _.
Arguments str_strip {T} _ _.
Arguments str_of {T} _ _.

(** What script generation does to the outside: [genai.configure] with a
    key, a request to the model. *)
Inductive gemini_event : Type :=
| Configure (api_key : string)
| GenerateContent (p : prompt).

Definition newline : ascii := ascii_of_nat 10.

(** [s.split("\n")] *)
Fixpoint split_lines (s : string) : list string :=
  match s with
  | EmptyString => [EmptyString]
  | String c s' =>
      if Ascii.eqb c newline then EmptyString :: split_lines s'
      else match split_lines s' with
           | first :: rest => String c first :: rest
           | [] => [String c EmptyString]
           end
  end.

(** ["\n".join(lines)] *)
Definition join_lines (lines : list string) : string :=
  String.concat (String newline EmptyString) lines.

Section Gemini.
Context {T : Type} (env : gemini_env T).

Definition _configure_gemini : list gemini_event * outcome unit :=
  let api_key :=
    if str_truthy (environ_api_key env) then environ_api_key env
    else _load_api_key_from_env_file env in
  match api_key with
  | Some key =>
      if str_truthy api_key then ([Configure key], Returned tt)
      else ([], Raised (RuntimeError
                          "GOOGLE_API_KEY is not set. Define it in a .env file or as an environment variable."))
  | None =>
      ([], Raised (RuntimeError
                     "GOOGLE_API_KEY is not set. Define it in a .env file or as an environment variable."))
  end.

(** [str(v)] *)
Definition py_str (v : json T) : string :=
  match v with
  | JStr s => s
  | _ => str_of env v
  end.

(** The removal of the markdown code fence around the response. *)
Definition unfence (text : string) : string :=
  if String.prefix "```" text then
    let lines := split_lines text in
    let lines :=
      match lines with
      | first :: rest => if String.prefix "```" first then rest else lines
      | [] => lines
      end in
    let lines :=
      match lines with
      | [] => lines
      | _ :: _ =>
          if String.eqb (str_strip env (last lines EmptyString)) "```"
          then removelast lines else lines
      end in
    str_strip env (join_lines lines)
  else text.

(** The loop that fills [cleaned]. *)
Fixpoint cleaned (data : list (json T)) : list (json T) :=
  match data with
  | [] => []
  | JDict items :: rest =>
      let get key :=
        match assoc key items with
        | Some v => v
        | None => JStr EmptyString
        end in
      let en := str_strip env (py_str (get "en")) in
      let ur := str_strip env (py_str (get "ur")) in
      if (negb (String.eqb en "") && negb (String.eqb ur ""))%bool
      then JDict [("en", JStr en); ("ur", JStr ur)] :: cleaned rest
      else cleaned rest
  | _ :: rest => cleaned rest
  end.

Definition generate_script_with_gemini
    (topic level : string) (num_pairs : Z) (script_type : string)
  : list gemini_event * outcome (list (json T)) :=
  if (num_pairs <=? 0)%Z then
    ([], Raised (ValueError "num_pairs must be > 0"))
  else
    match _configure_gemini with
    | (evs, Raised e) => (evs, Raised e)
    | (evs, Returned _) =>
        let p := {| prompt_topic := topic;
                    prompt_level := level;
                    prompt_script_type := script_type;
                    prompt_words := String.eqb script_type "words";
                    prompt_num_pairs := num_pairs |} in
        let evs := (evs ++ [GenerateContent p])%list in
        match generate_content env p with
        | Raised e => (evs, Raised e)
        | Returned response_text =>
            let text := unfence (str_strip env response_text) in
            match json_loads env text with
            | inr exc =>
                (evs,
                 Raised (RuntimeError
                           ("Gemini response was not valid JSON: " ++ exc
                            ++ String newline "Raw: "
                            ++ String.substring 0 400 text ++ "...")))
            | inl (JList data) =>
                let cleaned := cleaned data in
                match cleaned with
                | [] =>
                    (evs,
                     Raised (RuntimeError
                               "Gemini returned no usable en/ur pairs."))
                | _ :: _ =>
                    (evs,
                     Returned
                       (if (num_pairs <? Z.of_nat (List.length cleaned))%Z
                        then firstn (Z.to_nat num_pairs) cleaned
                        else cleaned))
                end
            | inl _ =>
                (evs,
                 Raised (RuntimeError "Gemini response JSON is not a list."))
            end
        end
    end.
End Gemini.

(** * Vocabulary of the further properties *)

Section Traces.
Context {T : Type} `{PyFloat T}.

(** The message the [log] callback gets at the start of entry [idx] of
    [n]. *)
Definition progress_message (idx n : nat) : string :=
  "[segment " ++ str_of_nat idx ++ "/" ++ str_of_nat n
  ++ "] Generating audio and frame...".

(** [pair.get(key, "")] for an entry that is an object. *)
Definition entry_text (pair : json T) (key : string) : json T :=
  match pair with
  | JDict items =>
      match assoc key items with
      | Some v => v
      | None => JStr ""
      end
  | _ => JStr ""
  end.

(** What the loop body does to the outside for one entry that goes
    through, [f] being the frame it renders. *)
Definition segment_events (log : bool) (n idx : nat) (pair : json T)
    (f : frame T) : list (event T) :=
  ((if log then [Log (progress_message idx n)] else [])
   ++ [Tts English (entry_text pair "en");
       Tts Urdu (entry_text pair "ur");
       Render f])%list.

(** The same for the entries of a script, numbered from [idx], with the
    clips made of them. *)
Fixpoint script_events (log : bool) (n idx : nat)
    (segments : list (json T)) (clips : list (clip T)) : list (event T) :=
  match segments, clips with
  | p :: segments', c :: clips' =>
      (segment_events log n idx p (clip_frame c)
       ++ script_events log n (S idx) segments' clips')%list
  | _, _ => []
  end.
End Traces.

(** The lesson's first entry goes through; a second entry whose pause is
    the string [soon] does not: the trace and the clips after the first,
    and the trace after the second. *)
Definition demo_failure
  : list (event Q) * list (event Q) * list (clip Q) :=
  match build_clips (demo_world demo_lesson Written) true 3
          "temp/images/fallback_bg.jpg" (Some "/app/fonts/en.ttf") None 1
          [demo_entry] [] with
  | (tr1, Returned cs) =>
      (tr1,
       fst (build_segment (demo_world demo_lesson Written) true 3
              "temp/images/fallback_bg.jpg" (Some "/app/fonts/en.ttf") None 2
              (JDict [("en", JStr "Yes"); ("ur", JStr "haan");
                      ("pause_after", JStr "soon")]) tr1),
       cs)
  | (tr1, Raised _) => (tr1, tr1, [])
  end.

(** The same machine with one more music file, [silence.mp3], which
    decodes to a clip of length zero. *)
Definition demo_world_silence : world Q :=
  let w := demo_world demo_script Written in
  {| json_load := json_load w;
     float_of_str := float_of_str w;
     ensure_temp_dirs := ensure_temp_dirs w;
     prepare_background_image := prepare_background_image w;
     fallback_background := fallback_background w;
     generate_english_tts := generate_english_tts w;
     generate_urdu_tts := generate_urdu_tts w;
     image_open := image_open w;
     fonts := fonts w;
     AudioFileClip := fun p =>
       if String.eqb p "silence.mp3" then Returned 0 else AudioFileClip w p;
     write_videofile := write_videofile w |}.

Definition demo_args : cli_args :=
  {| script := "script.json";
     output := "output.mp4";
     background_arg := None;
     no_cleanup := false;
     english_font := Some "/app/fonts/en.ttf";
     urdu_font := None |}.

Section FontVocabulary.
Context {T : Type} (env : font_env T).

(** [os.path.basename(p).lower()] *)
Definition font_key (p : string) : string :=
  lower (os_path_basename env p).

(** The dict [lower_map] of [_find_font_by_preferred_names], built from
    the candidates in order. *)
Definition lower_map (candidates : list string) : list (string * string) :=
  fold_left (fun m p => dict_set (font_key p) p m) candidates [].

(** [name] is part of the file name of [p], case apart. *)
Definition names_font (name p : string) : bool :=
  contains (lower name) (font_key p).

(** What the dict holds after the candidates [done]: under each file name
    the last path that has it, and a path for every file name met. *)
Definition lower_map_of (done : list string) (m : list (string * string))
  : Prop :=
  NoDup (map fst m) /\
  (forall k v,
      In (k, v) m ->
      k = font_key v /\
      exists l1 l2,
        done = (l1 ++ v :: l2)%list /\
        forall p, In p l2 -> font_key p <> k) /\
  (forall p, In p done -> exists v, In (font_key p, v) m).
End FontVocabulary.

(** An entry of a script with both texts, and nothing else. *)
Definition usable_entry {T} (p : json T) : Prop :=
  exists en ur,
    p = JDict [("en", JStr en); ("ur", JStr ur)] /\ en <> "" /\ ur <> "".

(** No line break in [s]. *)
Fixpoint one_line (s : string) : bool :=
  match s with
  | EmptyString => true
  | String c s' => (negb (Ascii.eqb c newline) && one_line s')%bool
  end.

(** A client with a key in [.env], whose model answers [response] to every
    prompt; the decoder reads the text [script] as four items, two of them
    usable. *)
Definition demo_gemini (response : string) : gemini_env Q :=
  {| environ_api_key := None;
     _load_api_key_from_env_file := Some "key";
     generate_content := fun _ => Returned response;
     json_loads := fun text =>
       if String.eqb text "script"
       then inl (JList [demo_entry; JNull; JDict [("en", JStr "Bye")];
                        demo_entry])
       else inr "Expecting value";
     str_strip := fun s => s;
     str_of := fun _ => "None" |}.

Definition demo_response : string :=
  "```json" ++ String newline ("script" ++ String newline "```").

(** * Properties *)

(** ** Segment timer *)

Lemma Qltb_true (a b : Q) : Qltb a b = true <-> a < b.
Proof.
  unfold Qltb. rewrite negb_true_iff. split.
  - intros E. apply Qnot_le_lt. intros L.
    apply Qle_bool_iff in L. congruence.
  - intros L. destruct (Qle_bool b a) eqn:E; [|reflexivity].
    apply Qle_bool_iff in E. apply Qle_not_lt in E. contradiction.
Qed.

Lemma Qltb_false (a b : Q) : Qltb a b = false <-> b <= a.
Proof.
  unfold Qltb. rewrite negb_false_iff. apply Qle_bool_iff.
Qed.

Lemma pymax_Qmax (a b : Q) : pymax a b == Qmax a b.
Proof.
  unfold pymax; cbn. destruct (Qltb a b) eqn:E.
  - apply Qltb_true in E. symmetry. apply Q.max_r. apply Qlt_le_weak, E.
  - apply Qltb_false in E. symmetry. apply Q.max_l, E.
Qed.

(** Splits every [Qmax] of the goal into its two cases. *)
Ltac max_cases :=
  repeat match goal with
         | |- context [Qmax ?a ?b] =>
             let L := fresh "L" in
             let E := fresh "E" in
             destruct (Q.max_spec a b) as [[L E]|[L E]]; rewrite E
         end.

Lemma schedule_total_pymax {T} `{PyFloat T} (en ur pa md : T) :
  total_audio_duration (schedule en ur pa md)
  = pymax (fadd (fadd (fadd en teaching_gap) ur) pa) md.
Proof. reflexivity. Qed.

Lemma schedule_total_Q (en ur pa md : Q) :
  total_audio_duration (schedule en ur pa md) == Qmax (en + 0.2 + ur + pa) md.
Proof. rewrite schedule_total_pymax. apply pymax_Qmax. Qed.

(** C1. For non-negative durations, pause and floor, the Urdu speech starts
    at [en_duration + 0.2] and the segment lasts
    [max(ur_start + ur_duration + pause_after, min_duration)].  The
    documented scenario (1.0 s, 1.2 s, no pause) gives 1.2 s and 2.4 s, and
    a floor of 5.0 s gives 5.0 s with the same Urdu start, both in exact
    and in binary64 arithmetic, where 1.2 and 2.4 are the doubles nearest
    to them, [0x1.3333333333333p+0] and [0x1.3333333333333p+1]. *)
Theorem schedule_contract :
  (forall en ur pa md : Q,
      0 <= en -> 0 <= ur -> 0 <= pa -> 0 <= md ->
      ur_start (schedule en ur pa md) == en + 0.2 /\
      total_audio_duration (schedule en ur pa md)
      == Qmax (ur_start (schedule en ur pa md) + ur + pa) md) /\
  (ur_start (schedule 1.0 1.2 0 0) == 1.2 /\
   total_audio_duration (schedule 1.0 1.2 0 0) == 2.4 /\
   ur_start (schedule 1.0 1.2 0 5.0) == 1.2 /\
   total_audio_duration (schedule 1.0 1.2 0 5.0) == 5.0) /\
  (schedule 1.0%float 0x1.3333333333333p+0%float 0%float 0%float
   = {| en_start := 0%float;
        ur_start := 0x1.3333333333333p+0%float;
        total_audio_duration := 0x1.3333333333333p+1%float |} /\
   schedule 1.0%float 0x1.3333333333333p+0%float 0%float 5.0%float
   = {| en_start := 0%float;
        ur_start := 0x1.3333333333333p+0%float;
        total_audio_duration := 5.0%float |}).
Proof.
  split; [|split].
  - intros en ur pa md _ _ _ _. split.
    + reflexivity.
    + apply schedule_total_Q.
  - repeat split; reflexivity.
  - split; reflexivity.
Qed.

Lemma schedule_contract_witness :
  ur_start (schedule 1.0 1.2 0 0) == 1.0 + 0.2 /\
  total_audio_duration (schedule 1.0 1.2 0 0)
  == Qmax (ur_start (schedule 1.0 1.2 0 0) + 1.2 + 0) 0.
Proof.
  apply (proj1 schedule_contract 1.0 1.2 0 0); unfold Qle; simpl; lia.
Defined.

(** C2, as the code has it. With both speech durations zero the teaching
    gap still counts: the segment lasts [max(0.2 + pause_after,
    min_duration)].  For all non-negative inputs the total is at least the
    gap, so it is never zero or negative. *)
Theorem schedule_degenerate (en ur pa md : Q) :
  0 <= en -> 0 <= ur -> 0 <= pa -> 0 <= md ->
  total_audio_duration (schedule 0 0 pa md) == Qmax (0.2 + pa) md /\
  0.2 <= total_audio_duration (schedule en ur pa md) /\
  0 < total_audio_duration (schedule en ur pa md).
Proof.
  intros Hen Hur Hpa Hmd.
  assert (G : 0.2 <= total_audio_duration (schedule en ur pa md)).
  { rewrite schedule_total_Q. max_cases; lra. }
  split; [|split].
  - rewrite schedule_total_Q. max_cases; lra.
  - exact G.
  - lra.
Qed.

Lemma schedule_degenerate_witness :
  total_audio_duration (schedule 0 0 1 0) == Qmax (0.2 + 1) 0 /\
  0.2 <= total_audio_duration (schedule 0 0 1 0) /\
  0 < total_audio_duration (schedule 0 0 1 0).
Proof.
  apply (schedule_degenerate 0 0 1 0); unfold Qle; simpl; lia.
Defined.

(** C2 as stated fails: with no speech, no pause and no floor the segment
    lasts 0.2 s, not [max(0, 0)]; with a pause of 1 s it lasts 1.2 s, not
    1 s.  The same in binary64. *)
Lemma schedule_degenerate_counterexample :
  total_audio_duration (schedule 0 0 0 0) == 0.2 /\
  ~ total_audio_duration (schedule 0 0 0 0) == Qmax 0 0 /\
  total_audio_duration (schedule 0 0 1 0) == 1.2 /\
  ~ total_audio_duration (schedule 0 0 1 0) == Qmax 1 0 /\
  total_audio_duration (schedule 0%float 0%float 0%float 0%float)
  = 0x1.999999999999ap-3%float.
Proof.
  repeat split; try reflexivity; intros E; vm_compute in E; discriminate E.
Qed.

(** C10. Over non-negative inputs the total duration is non-decreasing in
    each of the four inputs, the other three held fixed, and the Urdu start
    offset is the same whenever [en_duration] is. *)
Theorem schedule_monotone (en ur pa md x : Q) :
  0 <= en -> 0 <= ur -> 0 <= pa -> 0 <= md ->
  (en <= x -> total_audio_duration (schedule en ur pa md)
              <= total_audio_duration (schedule x ur pa md)) /\
  (ur <= x -> total_audio_duration (schedule en ur pa md)
              <= total_audio_duration (schedule en x pa md)) /\
  (pa <= x -> total_audio_duration (schedule en ur pa md)
              <= total_audio_duration (schedule en ur x md)) /\
  (md <= x -> total_audio_duration (schedule en ur pa md)
              <= total_audio_duration (schedule en ur pa x)) /\
  (forall ur' pa' md' : Q,
      ur_start (schedule en ur' pa' md') = ur_start (schedule en ur pa md)).
Proof.
  intros _ _ _ _.
  repeat split;
    try (intros Hx; rewrite !schedule_total_Q; max_cases; lra).
Qed.

Lemma schedule_monotone_witness :
  total_audio_duration (schedule 1.0 1.2 0 0)
  <= total_audio_duration (schedule 1.0 1.2 0 5.0).
Proof.
  apply (schedule_monotone 1.0 1.2 0 0 5.0); unfold Qle; simpl; lia.
Defined.

(** ** Effects of a run *)

Section Effects.
Context {T : Type} `{PyFloat T}.

Lemma regular_ret {A} (a : A) : regular (ret a : M T A).
Proof. intros tr. unfold ret. simpl. now rewrite app_nil_r. Qed.

Lemma regular_raise {A} (e : exn) : regular (@raise T A e).
Proof. intros tr. unfold raise. simpl. now rewrite app_nil_r. Qed.

Lemma regular_call {A} (o : outcome A) : regular (@call T A o).
Proof. intros tr. unfold call. simpl. now rewrite app_nil_r. Qed.

Lemma regular_check (o : option exn) : regular (@check T o).
Proof. destruct o; [apply regular_raise | apply regular_ret]. Qed.

Lemma regular_emit (ev : event T) : regular (emit ev).
Proof. intros tr. reflexivity. Qed.

Lemma regular_bind {A B} (c : M T A) (k : A -> M T B) :
  regular c -> (forall a, regular (k a)) -> regular (bind c k).
Proof.
  intros Hc Hk tr. unfold bind. rewrite (Hc tr).
  destruct (c []) as [ext [a|e]]; simpl.
  - rewrite (Hk a (tr ++ ext)%list), (Hk a ext). simpl.
    now rewrite app_assoc.
  - reflexivity.
Qed.

Lemma regular_try_except {A} (c : M T A) (h : exn -> M T A) :
  regular c -> (forall e, regular (h e)) -> regular (try_except c h).
Proof.
  intros Hc Hh tr. unfold try_except. rewrite (Hc tr).
  destruct (c []) as [ext [a|e]]; simpl.
  - reflexivity.
  - rewrite (Hh e (tr ++ ext)%list), (Hh e ext). simpl.
    now rewrite app_assoc.
Qed.

Lemma emits_ret P {A} (a : A) : emits P (ret a : M T A).
Proof. constructor. Qed.

Lemma emits_raise P {A} (e : exn) : emits P (@raise T A e).
Proof. constructor. Qed.

Lemma emits_call P {A} (o : outcome A) : emits P (@call T A o).
Proof. constructor. Qed.

Lemma emits_check P (o : option exn) : emits P (@check T o).
Proof. destruct o; constructor. Qed.

Lemma emits_emit (P : event T -> Prop) ev : P ev -> emits P (emit ev).
Proof. intros HP. unfold emits, emit. simpl. auto. Qed.

Lemma emits_bind P {A B} (c : M T A) (k : A -> M T B) :
  (forall a, regular (k a)) ->
  emits P c -> (forall a, emits P (k a)) -> emits P (bind c k).
Proof.
  unfold emits, bind. intros Hk Hc Hka.
  destruct (c []) as [ext [a|e]]; simpl in *.
  - rewrite (Hk a ext). simpl. apply Forall_app. split; [exact Hc | apply Hka].
  - exact Hc.
Qed.

Lemma emits_try_except P {A} (c : M T A) (h : exn -> M T A) :
  (forall e, regular (h e)) ->
  emits P c -> (forall e, emits P (h e)) -> emits P (try_except c h).
Proof.
  unfold emits, try_except. intros Hh Hc Hhe.
  destruct (c []) as [ext [a|e]]; simpl in *.
  - exact Hc.
  - rewrite (Hh e ext). simpl. apply Forall_app. split; [exact Hc | apply Hhe].
Qed.

Lemma file_after_app output_path (tr1 tr2 : list (event T)) st :
  file_after output_path (tr1 ++ tr2) st
  = file_after output_path tr2 (file_after output_path tr1 st).
Proof.
  revert st. induction tr1 as [|ev tr1 IH]; intros st; [reflexivity|].
  destruct ev; simpl; apply IH.
Qed.

Lemma file_after_quiet output_path (tr : list (event T)) st :
  Forall not_write tr -> file_after output_path tr st = st.
Proof.
  induction 1 as [|ev tr Hev _ IH]; [reflexivity|].
  destruct ev; simpl in *; try contradiction; exact IH.
Qed.

Lemma logged_app (tr1 tr2 : list (event T)) :
  logged (tr1 ++ tr2) = (logged tr1 ++ logged tr2)%list.
Proof.
  induction tr1 as [|ev tr1 IH]; [reflexivity|].
  destruct ev; simpl; rewrite ?IH; reflexivity.
Qed.

End Effects.

Create HintDb py discriminated.
#[export] Hint Resolve regular_ret regular_raise regular_call regular_check
  regular_emit regular_bind regular_try_except : py.
#[export] Hint Resolve emits_ret emits_raise emits_call emits_check
  emits_emit emits_bind emits_try_except : py.

(** Walks through a computation written with [bind], [try_except] and
    conditionals, leaving what the hint database does not know. *)
Ltac effects :=
  repeat first
    [ assumption
    | apply regular_ret | apply regular_raise | apply regular_call
    | apply regular_check | apply regular_emit
    | apply emits_ret | apply emits_raise | apply emits_call
    | apply emits_check | apply emits_emit; exact I
    | solve [auto with py nocore]
    | apply regular_bind; [| intros ?]
    | apply regular_try_except; [| intros ?]
    | apply emits_bind; [intros ? | | intros ?]
    | apply emits_try_except; [intros ? | | intros ?]
    | match goal with
      | |- regular (if ?b then _ else _) => destruct b
      | |- emits _ (if ?b then _ else _) => destruct b
      | |- regular (match ?x with _ => _ end) => destruct x
      | |- emits _ (match ?x with _ => _ end) => destruct x
      end ].

Section ComposerEffects.
Context {T : Type} `{PyFloat T} (w : world T).

Lemma _load_script_regular script_path :
  regular (_load_script w script_path).
Proof. unfold _load_script. effects. Qed.

Lemma _load_script_silent P script_path :
  emits P (_load_script w script_path).
Proof. unfold _load_script. effects. Qed.

Lemma render_caption_frame_regular bg pair ef uf :
  regular (render_caption_frame w bg pair ef uf).
Proof. unfold render_caption_frame. effects. Qed.

Lemma render_caption_frame_quiet bg pair ef uf :
  emits not_write (render_caption_frame w bg pair ef uf).
Proof. unfold render_caption_frame. effects. Qed.

Lemma build_segment_regular log n bg ef uf idx pair :
  regular (build_segment w log n bg ef uf idx pair).
Proof.
  pose proof render_caption_frame_regular.
  unfold build_segment. effects.
Qed.

Lemma build_segment_quiet log n bg ef uf idx pair :
  emits not_write (build_segment w log n bg ef uf idx pair).
Proof.
  pose proof render_caption_frame_regular.
  pose proof render_caption_frame_quiet.
  unfold build_segment. effects.
Qed.

Lemma build_clips_regular log n bg ef uf segments :
  forall idx, regular (build_clips w log n bg ef uf idx segments).
Proof.
  pose proof build_segment_regular.
  induction segments as [|p rest IH]; intros idx; simpl; effects.
Qed.

Lemma build_clips_quiet log n bg ef uf segments :
  forall idx, emits not_write (build_clips w log n bg ef uf idx segments).
Proof.
  pose proof build_segment_regular.
  pose proof build_segment_quiet.
  pose proof build_clips_regular.
  induction segments as [|p rest IH]; intros idx; simpl; effects.
Qed.

Lemma add_bgm_regular final bgm_path bgm_volume :
  regular (add_bgm w final bgm_path bgm_volume).
Proof. unfold add_bgm. effects. Qed.

(** The statements under [try:] call no callback and touch no file. *)
Lemma add_bgm_silent P final bgm_path bgm_volume :
  emits P (add_bgm w final bgm_path bgm_volume).
Proof. unfold add_bgm. effects. Qed.
End ComposerEffects.

(** ** Successful runs *)

Section Inversion.
Context {T : Type} `{PyFloat T}.

Lemma bind_returned {A B} (c : M T A) (k : A -> M T B) tr tr' b :
  bind c k tr = (tr', Returned b) ->
  exists a tr1, c tr = (tr1, Returned a) /\ k a tr1 = (tr', Returned b).
Proof.
  unfold bind. destruct (c tr) as [tr1 [a|e]]; intros E.
  - exists a, tr1. split; [reflexivity | exact E].
  - discriminate E.
Qed.

Lemma call_returned {A} (o : outcome A) (tr tr' : list (event T)) a :
  call o tr = (tr', Returned a) -> o = Returned a /\ tr' = tr.
Proof. unfold call. intros E. inversion E. split; reflexivity. Qed.
End Inversion.

(** Splits a hypothesis saying that a [bind] returned; [returned] goes down
    the whole chain. *)
Ltac returned1 H :=
  let a := fresh "a" in
  let tr1 := fresh "tr" in
  let E := fresh "E" in
  apply bind_returned in H; destruct H as (a & tr1 & E & H);
  try (apply call_returned in E; destruct E as [E ->]).

Ltac returned H := repeat returned1 H.

Section Timeline.
Context {T : Type} `{PyFloat T} (w : world T).

Lemma place_spec (clips : list (clip T)) :
  forall t,
    map snd (fst (place t clips)) = clips /\
    contiguous t (fst (place t clips)) (snd (place t clips)) /\
    snd (place t clips) = fold_left fadd (map clip_duration clips) t.
Proof.
  induction clips as [|c rest IH]; intros t; simpl.
  - repeat split. constructor.
  - specialize (IH (fadd t (clip_duration c))).
    destruct (place (fadd t (clip_duration c)) rest) as [placed t_end].
    simpl in *. destruct IH as (IH1 & IH2 & IH3).
    repeat split.
    + now rewrite IH1.
    + now constructor.
    + exact IH3.
Qed.

Lemma fades_keep_duration (a b : Q) (c : clip T) :
  clip_duration (fadeout b (fadein a c)) = clip_duration c.
Proof. reflexivity. Qed.

Lemma build_segment_returned log n bg ef uf idx pair tr tr' c :
  build_segment w log n bg ef uf idx pair tr = (tr', Returned c) ->
  segment_clip w pair c.
Proof.
  unfold build_segment. intros R. returned R.
  inversion R; subst; clear R.
  do 6 eexists. repeat split; eassumption.
Qed.

Lemma build_clips_returned log n bg ef uf segments :
  forall idx tr tr' clips,
    build_clips w log n bg ef uf idx segments tr = (tr', Returned clips) ->
    Forall2 (segment_clip w) segments clips.
Proof.
  induction segments as [|p rest IH]; simpl; intros idx tr tr' clips R.
  - inversion R. constructor.
  - returned R. inversion R; subst; clear R.
    constructor.
    + eapply build_segment_returned; eassumption.
    + eapply IH; eassumption.
Qed.
End Timeline.

Section Stages.
Context {T : Type} `{PyFloat T} (w : world T).
Variables (script_path output_path : string).
Variables (background_path english_font_path urdu_font_path : option string).
Variables (bgm_volume : T) (log : bool).

Lemma build_video_stages bgm_path tr :
  build_video w script_path output_path background_path english_font_path
    urdu_font_path bgm_path bgm_volume log tr
  = bind (gather_clips w script_path background_path english_font_path
       urdu_font_path log)
      (fun clips =>
         final <- mix_bgm w (assembled clips) bgm_path bgm_volume log ;;
         write_output w final output_path) tr.
Proof.
  unfold build_video, gather_clips, bind.
  destruct (_load_script w script_path tr) as [tr1 [[|p rest]|e]];
    try reflexivity.
  destruct (check (ensure_temp_dirs w) tr1) as [tr2 [[]|e]]; try reflexivity.
  destruct (emit TempDirs tr2) as [tr3 [[]|e]]; try reflexivity.
  destruct (background w background_path tr3) as [tr4 [bg|e]];
    reflexivity.
Qed.

Lemma background_regular : regular (background w background_path).
Proof. unfold background. effects. Qed.

Lemma background_quiet : emits not_write (background w background_path).
Proof. unfold background. effects. Qed.

Lemma gather_clips_quiet :
  emits not_write
    (gather_clips w script_path background_path english_font_path
       urdu_font_path log).
Proof.
  pose proof (_load_script_regular w).
  pose proof (_load_script_silent w not_write).
  pose proof background_regular.
  pose proof background_quiet.
  pose proof (build_clips_regular w).
  pose proof (build_clips_quiet w).
  unfold gather_clips. effects.
Qed.

(** When the clips were gathered, the script was a non-empty list and the
    clips are those of its entries, in order. *)
Lemma gather_clips_returned tr tr' clips :
  gather_clips w script_path background_path english_font_path
    urdu_font_path log tr = (tr', Returned clips) ->
  exists segments,
    json_load w script_path = Returned (JList segments) /\
    segments <> [] /\
    Forall2 (segment_clip w) segments clips.
Proof.
  unfold gather_clips, _load_script. intros R.
  apply bind_returned in R. destruct R as (segments & tr1 & L & R).
  returned L.
  destruct a as [| | | | |l|]; try discriminate L.
  inversion L; subst; clear L.
  destruct segments as [|p rest]; [discriminate R|].
  do 3 returned1 R.
  exists (p :: rest). repeat split; [assumption | discriminate |].
  eapply build_clips_returned; eassumption.
Qed.
End Stages.

Section Music.
Context {T : Type} `{PyFloat T} (w : world T).

Lemma mix_bgm_regular final bgm_path bgm_volume log :
  regular (mix_bgm w final bgm_path bgm_volume log).
Proof.
  pose proof (add_bgm_regular w).
  unfold mix_bgm. effects.
Qed.

Lemma mix_bgm_quiet final bgm_path bgm_volume log :
  emits not_write (mix_bgm w final bgm_path bgm_volume log).
Proof.
  pose proof (add_bgm_regular w).
  pose proof (add_bgm_silent w not_write).
  unfold mix_bgm. effects.
Qed.

Lemma add_bgm_returned final p bgm_volume tr tr' final' :
  add_bgm w final p bgm_volume tr = (tr', Returned final') ->
  exists b,
    AudioFileClip w p = Returned b /\
    flt b (tl_duration final) = false /\
    tr' = tr /\
    final' = mixed final {| music_path := p;
                            music_material := b;
                            music_duration := tl_duration final;
                            music_volume := bgm_volume |}.
Proof.
  unfold add_bgm, bind, call. intros R.
  destruct (AudioFileClip w p) as [b|e]; [|discriminate].
  exists b. split; [reflexivity|].
  destruct (flt b (tl_duration final)).
  - destruct (loops_needed (tl_duration final) b); discriminate.
  - split; [reflexivity|]. unfold mixed, ret in *.
    destruct (tl_audio final); inversion R; split; reflexivity.
Qed.

(** The music stage always hands a timeline on: the picture and the
    duration are those it was given. *)
Lemma mix_bgm_returns final bgm_path bgm_volume log tr :
  exists final',
    snd (mix_bgm w final bgm_path bgm_volume log tr) = Returned final' /\
    tl_clips final' = tl_clips final /\
    tl_duration final' = tl_duration final.
Proof.
  unfold mix_bgm. destruct bgm_path as [p|]; [|exists final; now repeat split].
  destruct (str_truthy (Some p)); [|exists final; now repeat split].
  unfold try_except.
  destruct (add_bgm w final p bgm_volume tr) as [tr1 [final'|e]] eqn:R.
  - exists final'. split; [reflexivity|].
    apply add_bgm_returned in R.
    destruct R as (b & _ & _ & _ & ->). now split.
  - exists final. destruct log; now repeat split.
Qed.

Lemma write_output_run final output_path tr :
  write_output w final output_path tr
  = match write_videofile w final with
    | Written =>
        ((tr ++ [WriteOpen output_path; WriteDone output_path final])%list,
         Returned output_path)
    | Failed e partial =>
        ((tr ++ (if partial then [WriteOpen output_path] else []))%list,
         Raised e)
    end.
Proof.
  unfold write_output. destruct (write_videofile w final) as [|e partial].
  - unfold bind, emit, ret. now rewrite <- app_assoc.
  - destruct partial; unfold bind, emit, ret, raise; simpl.
    + reflexivity.
    + now rewrite app_nil_r.
Qed.

(** A run of [build_video], stage by stage. *)
Lemma build_video_run script_path output_path background_path
    english_font_path urdu_font_path bgm_path bgm_volume log :
  run (build_video w script_path output_path background_path
         english_font_path urdu_font_path bgm_path bgm_volume log)
  = match gather_clips w script_path background_path english_font_path
            urdu_font_path log [] with
    | (tr1, Raised e) => (tr1, Raised e)
    | (tr1, Returned clips) =>
        match mix_bgm w (assembled clips) bgm_path bgm_volume log [] with
        | (tr2, Raised e) => ((tr1 ++ tr2)%list, Raised e)
        | (tr2, Returned final) =>
            match write_videofile w final with
            | Written =>
                ((tr1 ++ tr2
                  ++ [WriteOpen output_path; WriteDone output_path final])%list,
                 Returned output_path)
            | Failed e partial =>
                ((tr1 ++ tr2
                  ++ (if partial then [WriteOpen output_path] else []))%list,
                 Raised e)
            end
        end
    end.
Proof.
  unfold run. rewrite build_video_stages. unfold bind.
  destruct (gather_clips w script_path background_path english_font_path
              urdu_font_path log []) as [tr1 [clips|e]]; [|reflexivity].
  rewrite (mix_bgm_regular (assembled clips) bgm_path bgm_volume log tr1).
  destruct (mix_bgm w (assembled clips) bgm_path bgm_volume log [])
    as [tr2 [final|e]]; simpl; [|reflexivity].
  rewrite write_output_run.
  destruct (write_videofile w final) as [|e partial];
    now rewrite <- app_assoc.
Qed.
End Music.

(** ** Timeline assembly *)

Lemma assembled_clips {T} `{PyFloat T} (clips : list (clip T)) :
  tl_clips (assembled clips) = fst (place fzero clips) /\
  tl_duration (assembled clips) = snd (place fzero clips) /\
  tl_audio (assembled clips)
  = if existsb has_audio clips then Speech else Silent.
Proof.
  unfold assembled, concatenate_videoclips.
  destruct (place fzero clips) as [placed t_end]. now repeat split.
Qed.

(** C3. When a render completes, the file at the destination holds a
    timeline with one clip per script entry, in source order, each lasting
    what the segment timer computed for its entry (the fades leave it as it
    is); every clip starts where the one before it ends, the first at zero;
    and the duration of the whole is the sum of the clips' durations. *)
Theorem timeline_duration_is_sum {T} `{PyFloat T} (w : world T)
    script_path output_path background_path english_font_path urdu_font_path
    bgm_path bgm_volume log tr out :
  run (build_video w script_path output_path background_path
         english_font_path urdu_font_path bgm_path bgm_volume log)
  = (tr, Returned out) ->
  exists segments final,
    json_load w script_path = Returned (JList segments) /\
    segments <> [] /\
    file_after output_path tr Absent = Complete final /\
    Forall2 (segment_clip w) segments (map snd (tl_clips final)) /\
    contiguous fzero (tl_clips final) (tl_duration final) /\
    tl_duration final
    = fold_left fadd (map clip_duration (map snd (tl_clips final))) fzero.
Proof.
  rewrite build_video_run.
  pose proof (gather_clips_quiet w script_path background_path
                english_font_path urdu_font_path log) as Q1.
  unfold emits in Q1.
  destruct (gather_clips w script_path background_path english_font_path
              urdu_font_path log []) as [tr1 [clips|e]] eqn:G;
    [|discriminate].
  pose proof (mix_bgm_quiet w (assembled clips) bgm_path bgm_volume log) as Q2.
  unfold emits in Q2.
  destruct (mix_bgm_returns w (assembled clips) bgm_path bgm_volume log [])
    as (final & R & Hclips & Hdur).
  destruct (mix_bgm w (assembled clips) bgm_path bgm_volume log [])
    as [tr2 [final'|e]]; simpl in R; [|discriminate R].
  inversion R; subst final'; clear R.
  destruct (write_videofile w final) as [|e partial]; [|discriminate].
  intros E. inversion E; subst; clear E.
  apply gather_clips_returned in G. destruct G as (segments & L & NE & F).
  destruct (assembled_clips clips) as (A1 & A2 & _).
  destruct (place_spec clips fzero) as (P1 & P2 & P3).
  exists segments, final. simpl in Q1, Q2.
  repeat split; try assumption.
  - rewrite file_after_app, (file_after_quiet _ tr1) by assumption.
    rewrite file_after_app, (file_after_quiet _ tr2) by assumption.
    simpl. now rewrite String.eqb_refl.
  - now rewrite Hclips, A1, P1.
  - now rewrite Hclips, Hdur, A1, A2.
  - now rewrite Hclips, Hdur, A1, A2, P1.
Qed.

Lemma timeline_duration_is_sum_witness :
  exists segments final,
    json_load (demo_world demo_lesson Written) "script.json"
    = Returned (JList segments) /\
    segments <> [] /\
    file_after "out.mp4" (fst (demo_run demo_lesson Written None None true))
      Absent = Complete final /\
    Forall2 (segment_clip (demo_world demo_lesson Written)) segments
      (map snd (tl_clips final)) /\
    contiguous fzero (tl_clips final) (tl_duration final) /\
    tl_duration final
    = fold_left fadd (map clip_duration (map snd (tl_clips final))) fzero.
Proof.
  apply (timeline_duration_is_sum (demo_world demo_lesson Written)
           "script.json" "out.mp4" None (Some "/app/fonts/en.ttf") None None
           0.1 true (fst (demo_run demo_lesson Written None None true))
           "out.mp4").
  vm_compute. reflexivity.
Defined.

(** The two-entry lesson: 2.4 s and then 5 s, 7.4 s in all. *)
Example demo_lesson_run :
  exists tr final,
    demo_run demo_lesson Written None None true = (tr, Returned "out.mp4") /\
    file_after "out.mp4" tr Absent = Complete final /\
    Forall2 Qeq (map fst (tl_clips final)) [0; 2.4] /\
    Forall2 Qeq (map clip_duration (map snd (tl_clips final))) [2.4; 5] /\
    tl_duration final == 7.4.
Proof.
  do 2 eexists. split; [vm_compute; reflexivity|].
  split; [vm_compute; reflexivity|].
  repeat split; repeat constructor.
Qed.

Section Synthesis.
Context {T : Type} `{PyFloat T} (w : world T).

Lemma emitted_stays {A} (ev : event T) (k : unit -> M T A) tr :
  (forall u, regular (k u)) -> In ev (fst (bind (emit ev) k tr)).
Proof.
  intros R. unfold bind, emit. rewrite (R tt). simpl.
  apply in_or_app. left. apply in_or_app. right. now left.
Qed.

(** Once both texts of an entry are read, the English one is sent to
    speech synthesis, whatever it is. *)
Lemma build_segment_synthesizes log n bg ef uf idx pair en_text ur_text tr :
  pair_get pair "en" (JStr "") = Returned en_text ->
  pair_get pair "ur" (JStr "") = Returned ur_text ->
  In (Tts English en_text)
     (fst (build_segment w log n bg ef uf idx pair tr)).
Proof.
  intros Hen Hur. pose proof (render_caption_frame_regular w).
  unfold build_segment. unfold bind at 1.
  destruct log; simpl; unfold bind at 1, call at 1; rewrite Hen;
    unfold bind at 1, call at 1; rewrite Hur;
    apply emitted_stays; intros; effects.
Qed.
End Synthesis.

(** ** Errors *)

Section Progress.
Context {T : Type} `{PyFloat T} (w : world T).

(** What a computation appended stays in the trace of what follows it. *)
Lemma bind_extends {A B} (c : M T A) (k : A -> M T B) tr :
  (forall a, regular (k a)) ->
  exists ext, fst (bind c k tr) = (fst (c tr) ++ ext)%list.
Proof.
  intros R. unfold bind. destruct (c tr) as [tr1 [a|e]]; simpl.
  - rewrite (R a tr1). simpl. eauto.
  - exists []. now rewrite app_nil_r.
Qed.

Lemma build_video_extends script_path output_path background_path
    english_font_path urdu_font_path bgm_path bgm_volume log :
  exists ext,
    fst (run (build_video w script_path output_path background_path
                english_font_path urdu_font_path bgm_path bgm_volume log))
    = (fst (gather_clips w script_path background_path english_font_path
              urdu_font_path log []) ++ ext)%list.
Proof.
  rewrite build_video_run.
  destruct (gather_clips w script_path background_path english_font_path
              urdu_font_path log []) as [tr1 [clips|e]]; simpl.
  - destruct (mix_bgm w (assembled clips) bgm_path bgm_volume log [])
      as [tr2 [final|e]]; simpl; [|eauto].
    destruct (write_videofile w final); simpl; eauto.
  - exists []. now rewrite app_nil_r.
Qed.

Lemma in_bind_l {A B} (c : M T A) (k : A -> M T B) tr ev :
  (forall a, regular (k a)) ->
  In ev (fst (c tr)) -> In ev (fst (bind c k tr)).
Proof.
  intros R I. destruct (bind_extends c k tr R) as [ext ->].
  apply in_or_app. now left.
Qed.

Lemma in_bind_r {A B} (c : M T A) (k : A -> M T B) tr tr1 a ev :
  c tr = (tr1, Returned a) ->
  In ev (fst (k a tr1)) -> In ev (fst (bind c k tr)).
Proof. intros E I. unfold bind. now rewrite E. Qed.

(** With the directories and the background in place, the first entry of
    the script goes to speech synthesis with the texts it has, or the empty
    string for a text it does not have. *)
Lemma first_entry_is_synthesized script_path output_path background_path
    english_font_path urdu_font_path bgm_path bgm_volume log
    p rest bg_final en_text ur_text :
  json_load w script_path = Returned (JList (p :: rest)) ->
  ensure_temp_dirs w = None ->
  snd (background w background_path []) = Returned bg_final ->
  pair_get p "en" (JStr "") = Returned en_text ->
  pair_get p "ur" (JStr "") = Returned ur_text ->
  In (Tts English en_text)
     (fst (run (build_video w script_path output_path background_path
                  english_font_path urdu_font_path bgm_path bgm_volume log))).
Proof.
  intros L D B Hen Hur.
  destruct (build_video_extends script_path output_path background_path
              english_font_path urdu_font_path bgm_path bgm_volume log)
    as [ext ->].
  apply in_or_app. left. unfold gather_clips.
  destruct (background w background_path []) as [trb [bg|e]] eqn:Bg;
    simpl in B; [|discriminate B].
  inversion B; subst bg; clear B.
  eapply in_bind_r.
  { unfold _load_script, bind, call. rewrite L. reflexivity. }
  cbv beta iota.
  eapply in_bind_r; [unfold check; rewrite D; reflexivity|].
  eapply in_bind_r; [reflexivity|].
  eapply in_bind_r.
  { rewrite (background_regular w background_path), Bg. reflexivity. }
  cbn [build_clips].
  pose proof (build_clips_regular w).
  apply in_bind_l; [intros; effects|].
  eapply build_segment_synthesizes; eassumption.
Qed.
End Progress.

(** C6, as the code has it. A script that is not a list, or is the empty
    list, is refused with a [ValueError] before anything is produced: no
    temporary directory, no synthesis, no frame, no file.  An entry that has
    neither [en] nor [ur] is not refused: both texts default to the empty
    string, and with the directories and the background in place the render
    goes on to ask speech synthesis for the empty text. *)
Theorem malformed_script {T} `{PyFloat T} (w : world T)
    script_path output_path background_path english_font_path urdu_font_path
    bgm_path bgm_volume log data :
  json_load w script_path = Returned data ->
  ((forall segments, data <> JList segments) ->
   run (build_video w script_path output_path background_path
          english_font_path urdu_font_path bgm_path bgm_volume log)
   = ([], Raised (ValueError "Script must be a list of {en, ur} objects"))) /\
  (data = JList [] ->
   run (build_video w script_path output_path background_path
          english_font_path urdu_font_path bgm_path bgm_volume log)
   = ([], Raised (ValueError "Script is empty"))) /\
  (forall items rest bg_final,
      data = JList (JDict items :: rest) ->
      assoc "en" items = None -> assoc "ur" items = None ->
      ensure_temp_dirs w = None ->
      snd (background w background_path []) = Returned bg_final ->
      In (Tts English (JStr ""))
         (fst (run (build_video w script_path output_path background_path
                      english_font_path urdu_font_path bgm_path bgm_volume
                      log)))).
Proof.
  intros L. split; [|split].
  - intros NL. unfold run, build_video, _load_script, bind, call.
    rewrite L. destruct data; try reflexivity. now destruct (NL l).
  - intros ->. unfold run, build_video, _load_script, bind, call.
    now rewrite L.
  - intros items rest bg_final -> Hen Hur D B.
    eapply (first_entry_is_synthesized w); try eassumption.
    + unfold pair_get. now rewrite Hen.
    + unfold pair_get. now rewrite Hur.
Qed.

Lemma malformed_script_witness :
  run (build_video (demo_world (JList []) Written) "script.json" "out.mp4"
         None None None None 0.1 true)
  = ([], Raised (ValueError "Script is empty")).
Proof.
  refine (proj1 (proj2 (malformed_script (demo_world (JList []) Written)
                          "script.json" "out.mp4" None None None None 0.1 true
                          (JList []) _)) _); reflexivity.
Defined.

(** C6 as stated fails: a script whose only entry has neither [en] nor
    [ur] is rendered to the end, and the file is written. *)
Lemma malformed_script_counterexample :
  assoc "en" (@nil (string * json Q)) = None /\
  assoc "ur" (@nil (string * json Q)) = None /\
  snd (demo_run (JList [JDict []]) Written None None true)
  = Returned "out.mp4" /\
  exists final,
    file_after "out.mp4" (fst (demo_run (JList [JDict []]) Written None None true))
      Absent = Complete final.
Proof.
  repeat split. eexists. vm_compute. reflexivity.
Qed.

(** C8, as the code has it. The video is written straight to the
    destination path.  A render that ends in an error leaves the file at the
    destination as it was, unless the error is the encoder's own and the
    encoder had already created the file: then the partial file stays. *)
Theorem destination_after_error {T} `{PyFloat T} (w : world T)
    script_path output_path background_path english_font_path urdu_font_path
    bgm_path bgm_volume log tr e st :
  run (build_video w script_path output_path background_path
         english_font_path urdu_font_path bgm_path bgm_volume log)
  = (tr, Raised e) ->
  file_after output_path tr st = st \/
  (file_after output_path tr st = Partial /\
   exists final, write_videofile w final = Failed e true).
Proof.
  rewrite build_video_run.
  pose proof (gather_clips_quiet w script_path background_path
                english_font_path urdu_font_path log) as Q1.
  unfold emits in Q1.
  destruct (gather_clips w script_path background_path english_font_path
              urdu_font_path log []) as [tr1 [clips|e1]]; simpl in Q1.
  - pose proof (mix_bgm_quiet w (assembled clips) bgm_path bgm_volume log)
      as Q2.
    unfold emits in Q2.
    destruct (mix_bgm w (assembled clips) bgm_path bgm_volume log [])
      as [tr2 [final|e2]]; simpl in Q2.
    + destruct (write_videofile w final) as [|e3 partial] eqn:W;
        [discriminate|].
      intros E. inversion E; subst; clear E.
      rewrite file_after_app, (file_after_quiet _ tr1) by assumption.
      rewrite file_after_app, (file_after_quiet _ tr2) by assumption.
      destruct partial; simpl.
      * right. rewrite String.eqb_refl. split; [reflexivity|].
        exists final. exact W.
      * left. reflexivity.
    + intros E. inversion E; subst; clear E. left.
      rewrite file_after_app, (file_after_quiet _ tr1) by assumption.
      now apply file_after_quiet.
  - intros E. inversion E; subst; clear E. left.
    now apply file_after_quiet.
Qed.

Lemma destination_after_error_witness :
  file_after "out.mp4"
    (fst (demo_run demo_script Written (Some "/nofont.ttf") None true))
    Absent = Absent \/
  (file_after "out.mp4"
     (fst (demo_run demo_script Written (Some "/nofont.ttf") None true))
     Absent = Partial /\
   exists final,
     write_videofile (demo_world demo_script Written) final
     = Failed (RuntimeError
                 "Font path is missing or does not exist: '/nofont.ttf'")
              true).
Proof.
  refine (destination_after_error (demo_world demo_script Written)
            "script.json" "out.mp4" None (Some "/app/fonts/en.ttf")
            (Some "/nofont.ttf") None 0.1 true
            (fst (demo_run demo_script Written (Some "/nofont.ttf") None true))
            _ Absent _).
  vm_compute. reflexivity.
Defined.

(** C8 as stated fails: when the encoder gives up after it has created the
    file, the render ends in an error and a partial file is left at the
    destination. *)
Lemma destination_after_error_counterexample :
  snd (demo_run demo_script (Failed (OSError "broken pipe") true)
         None None true)
  = Raised (OSError "broken pipe") /\
  file_after "out.mp4"
    (fst (demo_run demo_script (Failed (OSError "broken pipe") true)
            None None true))
    Absent = Partial.
Proof. split; vm_compute; reflexivity. Qed.





(** ** Background music *)

Lemma Qtrunc_floor (q : Q) : 0 <= q -> Qtrunc q = Qfloor q.
Proof.
  destruct q as [n d]. unfold Qle, Qtrunc, Qfloor. simpl. intros L.
  apply Z.quot_div_nonneg; lia.
Qed.

(** In exact arithmetic the number of copies is computed whenever the
    music has a length other than zero. *)
Lemma loops_needed_Q (v b : Q) :
  ~ b == 0 -> loops_needed v b = Returned (Qtrunc (v / b) + 1)%Z.
Proof.
  intros NZ. unfold loops_needed, py_int. cbn [fdiv ftrunc PyFloat_Q].
  destruct (Qeq_bool b 0) eqn:Z0; [|reflexivity].
  apply Qeq_bool_iff in Z0. contradiction.
Qed.

(** C4, as the code has it. With a music file that loads, of length [b]:
    when the music is not shorter than the timeline, the timeline that goes
    on carries the music, cut to exactly the timeline's length, at the
    volume asked for, over the speech when there is speech, and nothing
    else of the timeline changes.  When the music is shorter, the loop is
    never made: the statements under [try:] raise, the timeline goes on as
    it was, without music, and the callback, if there is one, is told; once
    the number of copies is computed, the error is that the audio clip has
    no [loop]. *)
Theorem short_bgm_is_dropped {T} `{PyFloat T} (w : world T)
    (final : timeline T) (p : string) (bgm_volume : T) (log : bool)
    (tr : list (event T)) (b : T) :
  AudioFileClip w p = Returned b -> p <> "" ->
  (flt b (tl_duration final) = false ->
   mix_bgm w final (Some p) bgm_volume log tr
   = (tr,
      Returned
        {| tl_clips := tl_clips final;
           tl_duration := tl_duration final;
           tl_fps := tl_fps final;
           tl_size := tl_size final;
           tl_audio :=
             let bgm := {| music_path := p;
                           music_material := b;
                           music_duration := tl_duration final;
                           music_volume := bgm_volume |} in
             match tl_audio final with
             | Silent => MusicOnly bgm
             | _ => SpeechAndMusic bgm
             end |})) /\
  (flt b (tl_duration final) = true ->
   exists e,
     mix_bgm w final (Some p) bgm_volume log tr
     = ((tr ++ (if log
                then [Log ("Warning: Could not add BGM: " ++ exn_str e)%string]
                else []))%list,
        Returned final) /\
     (forall n,
         loops_needed (tl_duration final) b = Returned n ->
         e = AttributeError
               "'AudioFileClip' object has no attribute 'loop'")).
Proof.
  intros L NE. apply String.eqb_neq in NE.
  unfold mix_bgm, str_truthy. rewrite NE. cbn [negb].
  unfold try_except, add_bgm, bind, call, ret, raise, emit. rewrite L.
  split; intros C; rewrite C.
  - unfold set_audio. now destruct (tl_audio final).
  - destruct (loops_needed (tl_duration final) b) as [n|e].
    + exists (AttributeError "'AudioFileClip' object has no attribute 'loop'").
      split; [|reflexivity].
      destruct log; [reflexivity | now rewrite app_nil_r].
    + exists e. split; [|discriminate].
      destruct log; [reflexivity | now rewrite app_nil_r].
Qed.

Lemma short_bgm_is_dropped_witness :
  exists e,
    mix_bgm (demo_world demo_script Written) demo_timeline
      (Some "music.mp3") 0.1 true []
    = ([Log ("Warning: Could not add BGM: " ++ exn_str e)%string],
       Returned demo_timeline) /\
    e = AttributeError "'AudioFileClip' object has no attribute 'loop'".
Proof.
  destruct (short_bgm_is_dropped (demo_world demo_script Written)
              demo_timeline "music.mp3" 0.1 true [] 1)
    as (_ & S); [reflexivity | discriminate |].
  destruct (S eq_refl) as (e & R & A).
  exists e. split; [exact R|].
  apply (A (Qtrunc (tl_duration demo_timeline / 1) + 1)%Z).
  apply loops_needed_Q. discriminate.
Defined.

(** The whole render with a 1 s music file under the 2.4 s scenario: the
    file is written with the speech and no music, and the callback hears
    why. *)
Example demo_music_run :
  exists tr final,
    demo_run demo_script Written None (Some "music.mp3") true
    = (tr, Returned "out.mp4") /\
    file_after "out.mp4" tr Absent = Complete final /\
    tl_duration final == 2.4 /\
    tl_audio final = Speech /\
    logged tr
    = ["[segment 1/1] Generating audio and frame...";
       "Warning: Could not add BGM: 'AudioFileClip' object has no attribute 'loop'"].
Proof.
  do 2 eexists. split; [vm_compute; reflexivity|].
  split; [vm_compute; reflexivity|]. repeat split; reflexivity.
Qed.

(** The same render with a 10 s music file: the music is cut to 2.4 s and
    lies under the speech. *)
Example demo_long_music_run :
  exists tr final,
    demo_run demo_script Written None (Some "long.mp3") true
    = (tr, Returned "out.mp4") /\
    file_after "out.mp4" tr Absent = Complete final /\
    tl_audio final
    = SpeechAndMusic {| music_path := "long.mp3";
                        music_material := 10;
                        music_duration := tl_duration final;
                        music_volume := 0.1 |} /\
    tl_duration final == 2.4 /\
    logged tr = ["[segment 1/1] Generating audio and frame..."].
Proof.
  do 2 eexists. split; [vm_compute; reflexivity|].
  split; [vm_compute; reflexivity|]. repeat split; reflexivity.
Qed.

(** ** Fonts *)

Lemma load_font_exact {T} (env : font_env T) path size f :
  load_font env path size = Returned f ->
  path = Some (font_path f) /\
  font_size f = size /\
  os_path_isfile env (font_path f) = true /\
  truetype env (font_path f) size = None.
Proof.
  unfold load_font. destruct path as [p|]; [|discriminate].
  destruct (str_truthy (Some p) && os_path_isfile env p)%bool eqn:C;
    [|discriminate].
  apply andb_true_iff in C. destruct C as [_ F].
  destruct (truetype env p size) eqn:L; [discriminate|].
  intros E. inversion E; subst; clear E. simpl. now repeat split.
Qed.

Lemma repr_char_plain (c : ascii) :
  plain_char c = true -> repr_char single_quote c = String c "".
Proof.
  destruct c as [[] [] [] [] [] [] [] []]; intros P;
    solve [reflexivity | discriminate P].
Qed.

Lemma py_repr_plain (s : string) :
  plain s = true -> py_repr s = "'" ++ s ++ "'".
Proof.
  intros P. unfold py_repr.
  assert (Q1 : has_char single_quote s = false).
  { induction s as [|c s IH]; [reflexivity|].
    simpl in P. apply andb_true_iff in P. destruct P as [Pc Ps].
    cbn [has_char]. rewrite (IH Ps), orb_false_r.
    unfold plain_char in Pc. apply andb_true_iff in Pc.
    destruct Pc as [Pc _]. apply andb_true_iff in Pc. destruct Pc as [_ Pc].
    apply negb_true_iff in Pc. rewrite Ascii.eqb_sym. exact Pc. }
  rewrite Q1. cbn [andb]. clear Q1.
  assert (B : repr_body single_quote s = s).
  { induction s as [|c s IH]; [reflexivity|].
    simpl in P. apply andb_true_iff in P. destruct P as [Pc Ps].
    cbn [repr_body]. rewrite (repr_char_plain c Pc), (IH Ps).
    reflexivity. }
  rewrite B. reflexivity.
Qed.

(** [repr] on a Windows path, on a path with a single quote, on one with
    both quotes, and on one with a tab and a no-break space. *)
Example py_repr_examples :
  py_repr "C:\Windows\Fonts\arial.ttf" = "'C:\\Windows\\Fonts\\arial.ttf'" /\
  py_repr "it's"
  = String double_quote ("it's" ++ String double_quote "") /\
  py_repr ("it's " ++ String double_quote "x")
  = "'it\'s " ++ String double_quote "x'" /\
  py_repr (String (ascii_of_nat 9) (String (ascii_of_nat 160) "z"))
  = "'\t\xa0z'".
Proof. repeat split. Qed.

(** C7, as the code has it. A font path passed explicitly is the path that
    is loaded, for both languages.  When the file is missing or does not
    load, [load_font] raises a [RuntimeError] whose message names that
    path: a missing file by the [repr] of the path, which is the path
    between single quotes when it is made of printable characters other
    than the single quote and the backslash; a file that does not load by
    the path itself.  When [load_font] returns, the font is the one at the
    path it was given.  Nothing is said here of a path that comes from
    [fonts_config.json] or of a render with no explicit path: those go
    through the font search. *)
Theorem explicit_font_path {T} (env : font_env T) (p : string) (size : Z) :
  p <> "" ->
  get_urdu_font_path env (Some p) = Returned (Some p) /\
  get_english_font_path env (Some p) = Returned (Some p) /\
  (os_path_isfile env p = false ->
   load_font env (Some p) size
   = Raised (RuntimeError
               ("Font path is missing or does not exist: " ++ py_repr p))) /\
  (plain p = true -> py_repr p = "'" ++ p ++ "'") /\
  (forall exc,
      os_path_isfile env p = true -> truetype env p size = Some exc ->
      load_font env (Some p) size
      = Raised (RuntimeError
                  ("Failed to load font at " ++ p ++ ": " ++ exc))) /\
  (forall path f,
      load_font env path size = Returned f -> path = Some (font_path f)).
Proof.
  intros NE. apply String.eqb_neq in NE.
  split; [unfold get_urdu_font_path, str_truthy; now rewrite NE|].
  split; [unfold get_english_font_path, str_truthy; now rewrite NE|].
  split; [|split; [|split]].
  - intros F. unfold load_font. rewrite F, andb_false_r. reflexivity.
  - apply py_repr_plain.
  - intros exc F L. unfold load_font, str_truthy. rewrite NE, F, L.
    reflexivity.
  - intros path f R. now apply load_font_exact in R.
Qed.

Lemma explicit_font_path_witness :
  load_font (demo_fonts (@nil (string * json Q))) (Some "/nofont.ttf") 128
  = Raised (RuntimeError
              "Font path is missing or does not exist: '/nofont.ttf'").
Proof.
  refine (proj1 (proj2 (proj2 (explicit_font_path (demo_fonts [])
                                 "/nofont.ttf" 128 _))) _);
    [discriminate | reflexivity].
Defined.

(** C7 as stated fails: the Urdu font asked for in [fonts_config.json] is
    not on the disk, and the Urdu text is set in Arial without any error;
    with nothing asked for, Arial is the first choice for Urdu too, ahead
    of the Nastaliq face installed with the project. *)
Lemma explicit_font_path_counterexample :
  fonts_config (demo_fonts [("urdu_font_path",
                             JStr "/app/fonts/Jameel.ttf")])
  = JDict [("urdu_font_path", JStr "/app/fonts/Jameel.ttf")] /\
  os_path_isfile (demo_fonts [("urdu_font_path",
                               JStr "/app/fonts/Jameel.ttf")])
    "/app/fonts/Jameel.ttf" = false /\
  get_urdu_font_path
    (demo_fonts [("urdu_font_path", JStr "/app/fonts/Jameel.ttf")]) None
  = Returned (Some "/win/Fonts/arial.ttf") /\
  load_font (demo_fonts [("urdu_font_path", JStr "/app/fonts/Jameel.ttf")])
    (Some "/win/Fonts/arial.ttf") 128
  = Returned {| font_path := "/win/Fonts/arial.ttf"; font_size := 128 |} /\
  get_urdu_font_path (demo_fonts (@nil (string * json Q))) None
  = Returned (Some "/win/Fonts/arial.ttf").
Proof. repeat split. Qed.

(** ** Text layout *)

Lemma append_assoc (a b c : string) : (a ++ b) ++ c = a ++ (b ++ c).
Proof. induction a as [|ch a IH]; simpl; [reflexivity | now rewrite IH]. Qed.

Lemma length_append (a b : string) :
  String.length (a ++ b) = (String.length a + String.length b)%nat.
Proof. induction a as [|ch a IH]; simpl; [reflexivity | now rewrite IH]. Qed.

Lemma join_spaces_line (token : string) (rest : list string) :
  join_spaces (token :: rest) = line_with token rest.
Proof.
  unfold line_with. revert token.
  induction rest as [|t rest IH]; intros token; [reflexivity|].
  cbn [fold_left]. rewrite <- IH.
  change (join_spaces (token :: t :: rest))
    with (token ++ " " ++ join_spaces (t :: rest)).
  destruct rest as [|t' rest].
  - reflexivity.
  - change (join_spaces (t :: t' :: rest))
      with (t ++ " " ++ join_spaces (t' :: rest)).
    change (join_spaces ((token ++ " " ++ t) :: t' :: rest))
      with ((token ++ " " ++ t) ++ " " ++ join_spaces (t' :: rest)).
    now rewrite !append_assoc.
Qed.

(** Case analysis on whether the candidate line fits. *)
Ltac fits C :=
  match goal with
  | |- context [(?a <=? ?b)%Z] => destruct (a <=? b)%Z eqn:C
  | H : context [(?a <=? ?b)%Z] |- _ => destruct (a <=? b)%Z eqn:C
  end.

Section Wrap.
Variable width : string -> Z.
Variable max_width : Z.

Lemma wrap_onto_nonempty (rest : list string) :
  forall current, (1 <= List.length (wrap_onto width max_width current rest))%nat.
Proof.
  induction rest as [|t rest IH]; intros current; cbn [wrap_onto].
  - simpl. lia.
  - fits C; [apply IH | simpl; lia].
Qed.

(** A wrap that ends in one line took every token onto it. *)
Lemma wrap_onto_single (rest : list string) :
  forall current,
    List.length (wrap_onto width max_width current rest) = 1%nat ->
    rest = [] \/ (width (line_with current rest) <= max_width)%Z.
Proof.
  induction rest as [|t rest IH]; intros current L; [now left|]. right.
  cbn [wrap_onto] in L. unfold line_with. cbn [fold_left].
  fits C.
  - destruct (IH _ L) as [->|W]; [|exact W].
    cbn [fold_left]. now apply Z.leb_le.
  - cbn [List.length] in L. pose proof (wrap_onto_nonempty rest t). lia.
Qed.

(** Every line stays within the budget or is one of the tokens. *)
Lemma wrap_onto_lines (tokens rest : list string) :
  forall current,
    ((width current <= max_width)%Z \/ In current tokens) ->
    incl rest tokens ->
    forall line, In line (wrap_onto width max_width current rest) ->
                 (width line <= max_width)%Z \/ In line tokens.
Proof.
  induction rest as [|t rest IH]; intros current P I line HL;
    cbn [wrap_onto] in HL.
  - destruct HL as [<-|[]]. exact P.
  - assert (It : In t tokens) by (apply I; now left).
    assert (Ir : incl rest tokens) by (intros x Hx; apply I; now right).
    fits C.
    + apply (IH (current ++ " " ++ t)); try assumption.
      left. now apply Z.leb_le.
    + destruct HL as [<-|HL]; [exact P|].
      apply (IH t); try assumption. now right.
Qed.

(** When joining never makes a line narrower than its parts, a token
    wider than the budget neither takes a neighbour nor is taken. *)
Lemma wrap_onto_oversized (token : string) (rest : list string) :
  (forall a b, (width a <= width (a ++ " " ++ b))%Z /\
               (width b <= width (a ++ " " ++ b))%Z) ->
  (max_width < width token)%Z ->
  forall current,
    current = token \/ In token rest ->
    In token (wrap_onto width max_width current rest).
Proof.
  intros mono W.
  induction rest as [|t rest IH]; intros current [->|I]; cbn [wrap_onto].
  - now left.
  - destruct I.
  - fits C.
    + apply Z.leb_le in C. destruct (mono token t). lia.
    + now left.
  - fits C.
    + destruct I as [->|I].
      * apply Z.leb_le in C. destruct (mono current token). lia.
      * apply IH. now right.
    + right. apply IH. destruct I as [->|I]; [now left | now right].
Qed.
End Wrap.

Lemma char_width_monotone (a b : string) :
  (char_width a <= char_width (a ++ " " ++ b))%Z /\
  (char_width b <= char_width (a ++ " " ++ b))%Z.
Proof.
  unfold char_width. rewrite !length_append. split; lia.
Qed.

(** C9, against the wrap modelled from the spec. Both directions wrap
    alike.  A text of two or more tokens whose single line (the tokens
    joined by single spaces) is wider than [max_width] comes out in at
    least two lines; a text of one token comes out as that one line, however
    wide.  Every line is within [max_width] or is a single token.  When
    joining never makes a line narrower than its parts, a token wider than
    [max_width] stands alone on its line.  The wrap is a total function:
    it always ends with a result. *)
Theorem greedy_wrap (width : string -> Z) (max_width : Z) (text : string) :
  wrap_text_rtl width max_width text = wrap_text_ltr width max_width text /\
  ((2 <= List.length (split text))%nat ->
   (max_width < width (join_spaces (split text)))%Z ->
   (2 <= List.length (wrap_text_ltr width max_width text))%nat) /\
  (forall token,
      split text = [token] -> wrap_text_ltr width max_width text = [token]) /\
  (forall line,
      In line (wrap_text_ltr width max_width text) ->
      (width line <= max_width)%Z \/ In line (split text)) /\
  ((forall a b, (width a <= width (a ++ " " ++ b))%Z /\
                (width b <= width (a ++ " " ++ b))%Z) ->
   forall token,
     In token (split text) -> (max_width < width token)%Z ->
     In token (wrap_text_ltr width max_width text)).
Proof.
  unfold wrap_text_rtl, wrap_text_ltr, wrap_tokens.
  split; [reflexivity|].
  destruct (split text) as [|t rest]; repeat split.
  - simpl. lia.
  - discriminate.
  - intros line [].
  - intros _ token [].
  - intros L W. destruct rest as [|t' rest]; [simpl in L; lia|].
    rewrite join_spaces_line in W.
    pose proof (wrap_onto_nonempty width max_width (t' :: rest) t) as N.
    destruct (Nat.eq_dec (List.length
                            (wrap_onto width max_width t (t' :: rest))) 1)
      as [E|E]; [|lia].
    destruct (wrap_onto_single width max_width _ _ E) as [D|D];
      [discriminate D | lia].
  - intros token E. inversion E. reflexivity.
  - intros line I.
    apply (wrap_onto_lines width max_width (t :: rest) rest t);
      [right; now left | intros x Hx; now right | exact I].
  - intros mono token I W.
    apply wrap_onto_oversized; assumption.
Qed.

Lemma greedy_wrap_witness :
  (2 <= List.length (wrap_text_ltr char_width 10 "hello  wide world"))%nat /\
  In "extraordinary" (wrap_text_ltr char_width 10 "an extraordinary day").
Proof.
  split.
  - apply (proj1 (proj2 (greedy_wrap char_width 10 "hello  wide world")));
      [vm_compute; lia | vm_compute; reflexivity].
  - apply (proj2 (proj2 (proj2 (proj2
             (greedy_wrap char_width 10 "an extraordinary day"))))
             char_width_monotone);
      [vm_compute; auto | vm_compute; reflexivity].
Defined.

(** C9 as stated fails: a text of one token wider than the budget is not
    empty and is wider than [max_width], and it comes out as one line, not
    two, in both directions. *)
Lemma greedy_wrap_counterexample :
  "extraordinary" <> "" /\
  (5 < char_width "extraordinary")%Z /\
  wrap_text_ltr char_width 5 "extraordinary" = ["extraordinary"] /\
  wrap_text_rtl char_width 5 "extraordinary" = ["extraordinary"] /\
  ~ (2 <= List.length (wrap_text_ltr char_width 5 "extraordinary"))%nat.
Proof.
  repeat split; try discriminate. vm_compute. lia.
Qed.

(** * Further properties *)

(** ** What a completed render does *)

Section RenderTrace.
Context {T : Type} `{PyFloat T} (w : world T).

Lemma emit_returned (ev : event T) tr tr' u :
  emit ev tr = (tr', Returned u) -> tr' = (tr ++ [ev])%list.
Proof. unfold emit. intros E. now inversion E. Qed.

Lemma ret_returned {A} (a b : A) (tr tr' : list (event T)) :
  ret a tr = (tr', Returned b) -> tr' = tr /\ b = a.
Proof. unfold ret. intros E. now inversion E. Qed.

Lemma pair_get_entry_text (pair : json T) key v :
  pair_get pair key (JStr "") = Returned v -> v = entry_text pair key.
Proof.
  unfold pair_get, entry_text. destruct pair; try discriminate.
  intros E. now inversion E.
Qed.

(** A frame that is rendered shows the entry over the given background, in
    the two resolved fonts, which are files that loaded at 108 and 128
    pixels. *)
Lemma render_caption_frame_returned bg pair ef uf tr tr' f :
  render_caption_frame w bg pair ef uf tr = (tr', Returned f) ->
  tr' = (tr ++ [Render f])%list /\
  frame_background f = bg /\
  frame_pair f = pair /\
  get_english_font_path (fonts w) ef = Returned (Some (font_path (frame_en_font f))) /\
  get_urdu_font_path (fonts w) uf = Returned (Some (font_path (frame_ur_font f))) /\
  font_size (frame_en_font f) = 108%Z /\
  font_size (frame_ur_font f) = 128%Z /\
  os_path_isfile (fonts w) (font_path (frame_en_font f)) = true /\
  os_path_isfile (fonts w) (font_path (frame_ur_font f)) = true.
Proof.
  unfold render_caption_frame. intros R.
  returned1 R. returned1 R. returned1 R. returned1 R. returned1 R.
  returned1 R.
  apply ret_returned in R. destruct R as [-> ->].
  unfold check in E. destruct (image_open w bg); [discriminate E|].
  apply ret_returned in E. destruct E as [-> _].
  apply load_font_exact in E2. apply load_font_exact in E3.
  destruct E2 as (P2 & S2 & F2 & _). destruct E3 as (P3 & S3 & F3 & _).
  subst a0 a1. simpl. repeat split; assumption.
Qed.

Lemma build_segment_trace log n bg ef uf idx pair tr tr' c :
  build_segment w log n bg ef uf idx pair tr = (tr', Returned c) ->
  tr' = (tr ++ segment_events log n idx pair (clip_frame c))%list.
Proof.
  unfold build_segment. intros R.
  apply bind_returned in R. destruct R as (u & tr0 & L & R).
  assert (L' : tr0 = (tr ++ (if log then [Log (progress_message idx n)]
                             else []))%list).
  { destruct log.
    - now apply emit_returned in L.
    - apply ret_returned in L. destruct L as [-> _]. now rewrite app_nil_r. }
  clear L. returned1 R. returned1 R. returned1 R. returned1 R.
  returned1 R. returned1 R. returned1 R. returned1 R. returned1 R.
  returned1 R. returned1 R.
  apply ret_returned in R. destruct R as [-> ->].
  apply render_caption_frame_returned in E7. destruct E7 as (E7 & _).
  apply pair_get_entry_text in E. apply pair_get_entry_text in E0.
  subst. unfold segment_events. simpl clip_frame.
  rewrite <- !app_assoc. reflexivity.
Qed.

Lemma build_clips_trace log n bg ef uf segments :
  forall idx tr tr' clips,
    build_clips w log n bg ef uf idx segments tr = (tr', Returned clips) ->
    tr' = (tr ++ script_events log n idx segments clips)%list /\
    List.length clips = List.length segments.
Proof.
  induction segments as [|p rest IH]; intros idx tr tr' clips R;
    cbn [build_clips] in R.
  - apply ret_returned in R. destruct R as [-> ->].
    now rewrite app_nil_r.
  - apply bind_returned in R. destruct R as (c & tr1 & S & R).
    apply bind_returned in R. destruct R as (cs & tr2 & C & R).
    apply ret_returned in R. destruct R as [-> ->].
    apply build_segment_trace in S. apply IH in C. destruct C as [C N].
    subst. cbn [script_events List.length].
    rewrite <- app_assoc. split; [reflexivity | now rewrite N].
Qed.
End RenderTrace.

Section CompletedRender.
Context {T : Type} `{PyFloat T} (w : world T).

Lemma background_returned background_path tr tr' bg_final :
  background w background_path tr = (tr', Returned bg_final) ->
  tr' = (tr ++ [Background (if str_truthy background_path
                            then background_path else None)])%list.
Proof.
  unfold background. destruct background_path as [p|].
  - destruct (str_truthy (Some p)); intros R; returned1 R;
      now apply call_returned in R as [_ ->].
  - intros R. returned1 R. now apply call_returned in R as [_ ->].
Qed.

Lemma gather_clips_trace script_path background_path english_font_path
    urdu_font_path log tr tr' clips :
  gather_clips w script_path background_path english_font_path
    urdu_font_path log tr = (tr', Returned clips) ->
  exists segments,
    json_load w script_path = Returned (JList segments) /\
    List.length clips = List.length segments /\
    tr' = (tr ++ [TempDirs;
                  Background (if str_truthy background_path
                              then background_path else None)]
           ++ script_events log (List.length segments) 1 segments clips)%list.
Proof.
  unfold gather_clips, _load_script. intros R.
  apply bind_returned in R. destruct R as (segments & tr1 & L & R).
  returned L.
  destruct a as [| | | | |l|]; try discriminate L.
  apply ret_returned in L. destruct L as [-> <-].
  destruct segments as [|p rest]; [discriminate R|].
  returned1 R. returned1 R.
  apply bind_returned in R. destruct R as (bg_final & tr2 & B & R).
  apply background_returned in B.
  apply build_clips_trace in R. destruct R as [R N].
  unfold check in E0. destruct (ensure_temp_dirs w); [discriminate E0|].
  apply ret_returned in E0. destruct E0 as [-> _].
  exists (p :: rest). split; [exact E|]. split; [exact N|].
  subst. rewrite <- !app_assoc. reflexivity.
Qed.

Lemma mix_bgm_trace final bgm_path bgm_volume log tr tr' final' :
  mix_bgm w final bgm_path bgm_volume log tr = (tr', Returned final') ->
  tl_clips final' = tl_clips final /\
  tl_duration final' = tl_duration final /\
  tl_fps final' = tl_fps final /\
  tl_size final' = tl_size final /\
  (tr' = tr \/
   exists e, log = true /\ str_truthy bgm_path = true /\ final' = final /\
             tr' = (tr ++ [Log ("Warning: Could not add BGM: "
                                ++ exn_str e)%string])%list).
Proof.
  unfold mix_bgm. destruct bgm_path as [p|].
  2:{ intros R. apply ret_returned in R. destruct R as [-> ->].
      repeat split. now left. }
  destruct (str_truthy (Some p)) eqn:P.
  2:{ intros R. apply ret_returned in R. destruct R as [-> ->].
      repeat split. now left. }
  unfold try_except.
  destruct (add_bgm w final p bgm_volume tr) as [tr1 [f|e]] eqn:A.
  - intros R. inversion R; subst; clear R.
    apply add_bgm_returned in A.
    destruct A as (b & _ & _ & -> & ->).
    repeat split. now left.
  - pose proof (add_bgm_regular w final p bgm_volume tr) as G.
    pose proof (add_bgm_silent w (fun _ => False) final p bgm_volume) as S.
    unfold emits in S. rewrite G in A.
    destruct (add_bgm w final p bgm_volume []) as [ext o]. simpl in *.
    inversion A; subst; clear A.
    destruct ext; [|now inversion S]. rewrite app_nil_r.
    destruct log; intros R.
    + returned1 R. apply ret_returned in R. destruct R as [-> ->].
      repeat split. right. exists e. now repeat split.
    + returned1 R. apply ret_returned in R. destruct R as [-> ->].
      repeat split. now left.
Qed.

(** X1. A render that completes did exactly this, in this order: it made
    the temporary directories and prepared the background; for each entry
    of the script, in source order, it called the [log] callback (when there
    is one) with the entry's number, asked for the English and then the Urdu
    speech of the entry's texts, and rendered one frame; it logged at most
    one warning about the music; and it wrote the file at the output path,
    which it returns. *)
Theorem completed_render_trace
    script_path output_path background_path english_font_path urdu_font_path
    bgm_path bgm_volume log tr out :
  run (build_video w script_path output_path background_path
         english_font_path urdu_font_path bgm_path bgm_volume log)
  = (tr, Returned out) ->
  exists segments final warnings,
    json_load w script_path = Returned (JList segments) /\
    out = output_path /\
    List.length (tl_clips final) = List.length segments /\
    tr = ([TempDirs;
           Background (if str_truthy background_path
                       then background_path else None)]
          ++ script_events log (List.length segments) 1 segments
               (map snd (tl_clips final))
          ++ warnings
          ++ [WriteOpen output_path; WriteDone output_path final])%list /\
    (warnings = [] \/
     exists e, log = true /\ str_truthy bgm_path = true /\
               warnings = [Log ("Warning: Could not add BGM: "
                                ++ exn_str e)%string]).
Proof.
  rewrite build_video_run.
  destruct (gather_clips w script_path background_path english_font_path
              urdu_font_path log []) as [tr1 [clips|e]] eqn:G;
    [|discriminate].
  destruct (mix_bgm w (assembled clips) bgm_path bgm_volume log [])
    as [tr2 [final|e]] eqn:B; [|discriminate].
  destruct (write_videofile w final) as [|e partial]; [|discriminate].
  intros E. inversion E; subst; clear E.
  apply gather_clips_trace in G. destruct G as (segments & L & N & ->).
  apply mix_bgm_trace in B. destruct B as (C & _ & _ & _ & B).
  destruct (assembled_clips clips) as (A1 & _ & _).
  destruct (place_spec clips fzero) as (P1 & _ & _).
  assert (M : map snd (tl_clips final) = clips) by now rewrite C, A1, P1.
  exists segments, final, tr2. split; [exact L|]. split; [reflexivity|].
  split. { now rewrite <- (length_map snd), M. }
  split. { rewrite M. simpl. reflexivity. }
  destruct B as [->|(e & Hl & Hb & _ & ->)]; [now left|].
  right. exists e. now repeat split.
Qed.

End CompletedRender.

Lemma completed_render_trace_witness :
  exists segments final warnings,
    json_load (demo_world demo_lesson Written) "script.json"
    = Returned (JList segments) /\
    "out.mp4" = "out.mp4" /\
    List.length (tl_clips final) = List.length segments /\
    fst (demo_run demo_lesson Written None (Some "bad.mp3") true)
    = ([TempDirs; Background None]
       ++ script_events true (List.length segments) 1 segments
            (map snd (tl_clips final))
       ++ warnings
       ++ [WriteOpen "out.mp4"; WriteDone "out.mp4" final])%list /\
    (warnings = [] \/
     exists e, true = true /\ str_truthy (Some "bad.mp3") = true /\
               warnings = [Log ("Warning: Could not add BGM: "
                                ++ exn_str e)%string]).
Proof.
  refine (completed_render_trace (demo_world demo_lesson Written)
            "script.json" "out.mp4" None (Some "/app/fonts/en.ttf") None
            (Some "bad.mp3") 0.1 true
            (fst (demo_run demo_lesson Written None (Some "bad.mp3") true))
            "out.mp4" _).
  vm_compute. reflexivity.
Defined.

Section Frames.
Context {T : Type} `{PyFloat T} (w : world T).



End Frames.


(** ** The loop over the entries *)

Section Loop.
Context {T : Type} `{PyFloat T} (w : world T).

Lemma build_clips_app log n bg ef uf pre :
  forall idx post tr tr1 cs,
    build_clips w log n bg ef uf idx pre tr = (tr1, Returned cs) ->
    build_clips w log n bg ef uf idx (pre ++ post) tr
    = bind (build_clips w log n bg ef uf (idx + List.length pre)%nat post)
        (fun cs' => ret (cs ++ cs')%list) tr1.
Proof.
  induction pre as [|p pre IH]; intros idx post tr tr1 cs R.
  - cbn [build_clips] in R. apply ret_returned in R. destruct R as [-> ->].
    simpl. rewrite Nat.add_0_r. unfold bind, ret.
    now destruct (build_clips w log n bg ef uf idx post tr) as [? [?|?]].
  - cbn [build_clips] in R.
    apply bind_returned in R. destruct R as (c & tr2 & Hs & R).
    apply bind_returned in R. destruct R as (cs' & tr3 & C & R).
    apply ret_returned in R. destruct R as [-> ->].
    cbn [app build_clips List.length]. unfold bind at 1. rewrite Hs.
    unfold bind at 1. rewrite (IH _ post _ _ _ C).
    rewrite Nat.add_succ_r. cbn [Nat.add]. unfold bind, ret.
    now destruct (build_clips w log n bg ef uf (S (idx + List.length pre))
                    post tr3) as [? [?|?]].
Qed.

(** X3. The loop stops at the first entry that fails: when the entries
    before it went through and its own processing raises, the render of the
    whole script raises that error, with the trace as it stood then, so no
    later entry is logged, synthesized or rendered. *)
Theorem first_failure_stops_the_loop log n bg ef uf idx pre p post
    tr tr1 tr2 cs e :
  build_clips w log n bg ef uf idx pre tr = (tr1, Returned cs) ->
  build_segment w log n bg ef uf (idx + List.length pre)%nat p tr1
  = (tr2, Raised e) ->
  build_clips w log n bg ef uf idx (pre ++ p :: post) tr = (tr2, Raised e).
Proof.
  intros R F. rewrite (build_clips_app _ _ _ _ _ _ _ _ _ _ _ R).
  unfold bind at 1. cbn [build_clips]. unfold bind at 1. now rewrite F.
Qed.
End Loop.

(** An entry whose pause cannot be read as a number. *)
Lemma first_failure_stops_the_loop_witness :
  build_clips (demo_world demo_lesson Written) true 3
    "temp/images/fallback_bg.jpg" (Some "/app/fonts/en.ttf") None 1
    ([demo_entry]
     ++ JDict [("en", JStr "Yes"); ("ur", JStr "haan");
               ("pause_after", JStr "soon")]
     :: [demo_entry]) []
  = (snd (fst (demo_failure)),
     Raised (ValueError "could not convert string to float: 'soon'")).
Proof.
  refine (first_failure_stops_the_loop (demo_world demo_lesson Written)
            true 3 "temp/images/fallback_bg.jpg" (Some "/app/fonts/en.ttf")
            None 1 [demo_entry] _ [demo_entry]
            [] (fst (fst demo_failure)) (snd (fst demo_failure))
            (snd demo_failure) _ _ _);
    vm_compute; reflexivity.
Defined.

(** ** Pauses and floors *)

(** X4. A pause or a floor that is missing from the entry, or given as
    [null], [false], [0], [0.0], the empty string, the empty list or the
    empty object, counts as [0.0]; a non-empty list or object is a
    [TypeError] that names its type, a string that is no number a
    [ValueError] that quotes it as [repr] does; a number is taken as it is,
    an integer converted. *)
Theorem pause_or_floor_value {T} `{PyFloat T} (w : world T)
    (items : list (string * json T)) (key : string) :
  (assoc key items = None ->
   float_or_zero w (JDict items) key = Returned fzero) /\
  (forall v,
      assoc key items = Some v -> py_truthy v = false ->
      float_or_zero w (JDict items) key = Returned fzero) /\
  (In (assoc key items)
      [Some JNull; Some (JBool false); Some (JInt 0); Some (JStr "");
       Some (JList []); Some (JDict [])] ->
   float_or_zero w (JDict items) key = Returned fzero) /\
  (forall x,
      assoc key items = Some (JFloat x) -> ftruthy x = true ->
      float_or_zero w (JDict items) key = Returned x) /\
  (forall n x,
      assoc key items = Some (JInt n) -> n <> 0%Z -> f_of_int n = Some x ->
      float_or_zero w (JDict items) key = Returned x) /\
  (forall s,
      assoc key items = Some (JStr s) -> s <> "" ->
      float_of_str w s = None ->
      float_or_zero w (JDict items) key
      = Raised (ValueError
                  ("could not convert string to float: " ++ py_repr s))) /\
  (forall v,
      assoc key items = Some v ->
      (exists x l, v = JList (x :: l)) \/
      (exists kv rest, v = JDict (kv :: rest)) ->
      float_or_zero w (JDict items) key
      = Raised (TypeError
                  ("float() argument must be a string or a real number, not '"
                   ++ type_name v ++ "'"))).
Proof.
  unfold float_or_zero, pair_get.
  repeat split.
  - intros ->. now destruct (py_truthy (JFloat fzero)).
  - intros v -> F. now rewrite F.
  - intros I. simpl in I.
    destruct I as [<-|[<-|[<-|[<-|[<-|[<-|[]]]]]]]; reflexivity.
  - intros x -> F. simpl. now rewrite F.
  - intros n x -> N F. simpl.
    apply Z.eqb_neq in N. rewrite N. simpl. now rewrite F.
  - intros s -> N F. simpl.
    apply String.eqb_neq in N. rewrite N. simpl. now rewrite F.
  - intros v -> [(x & l & ->)|(kv & rest & ->)]; reflexivity.
Qed.

Lemma pause_or_floor_value_witness :
  float_or_zero (demo_world demo_lesson Written)
    (JDict [("en", JStr "Hi"); ("pause_after", JNull)]) "pause_after"
  = Returned 0.
Proof.
  refine (proj1 (proj2 (proj2 (pause_or_floor_value
                                 (demo_world demo_lesson Written)
                                 [("en", JStr "Hi"); ("pause_after", JNull)]
                                 "pause_after"))) _).
  simpl. auto.
Defined.



(** ** Options and odd inputs *)

Section Options.
Context {T : Type} `{PyFloat T} (w : world T).

Lemma bind_ext {A B} (c c' : M T A) (k k' : A -> M T B) tr :
  c tr = c' tr -> (forall a tr1, k a tr1 = k' a tr1) ->
  bind c k tr = bind c' k' tr.
Proof.
  intros C K. unfold bind. rewrite C.
  destruct (c' tr) as [tr1 [a|e]]; [apply K | reflexivity].
Qed.

Lemma falsy_option (s : option string) :
  str_truthy s = false -> s = None \/ s = Some "".
Proof.
  destruct s as [s|]; [|now left]. simpl. rewrite negb_false_iff.
  intros E. apply String.eqb_eq in E. subst. now right.
Qed.

Lemma build_clips_falsy_fonts log n bg ef uf segments :
  str_truthy ef = false -> str_truthy uf = false ->
  forall idx tr,
    build_clips w log n bg ef uf idx segments tr
    = build_clips w log n bg None None idx segments tr.
Proof.
  intros Fe Fu.
  destruct (falsy_option _ Fe) as [->| ->];
    destruct (falsy_option _ Fu) as [->| ->];
    induction segments as [|p rest IH]; intros idx tr;
    try reflexivity; cbn [build_clips];
    (apply bind_ext; [reflexivity|]); intros c tr1;
    (apply bind_ext; [apply IH | reflexivity]).
Qed.

(** X6. An option given as the empty string is an option not given: for
    the background, the two font overrides and the music alike, the render
    is the same as with the option left out. *)
Theorem empty_options_are_absent
    script_path output_path background_path english_font_path urdu_font_path
    bgm_path bgm_volume log tr :
  str_truthy background_path = false ->
  str_truthy english_font_path = false ->
  str_truthy urdu_font_path = false ->
  str_truthy bgm_path = false ->
  build_video w script_path output_path background_path english_font_path
    urdu_font_path bgm_path bgm_volume log tr
  = build_video w script_path output_path None None None None
      bgm_volume log tr.
Proof.
  intros Fb Fe Fu Fm. unfold build_video.
  apply bind_ext; [reflexivity|]. intros segments tr1.
  destruct segments as [|p rest]; [reflexivity|].
  apply bind_ext; [reflexivity|]. intros _ tr2.
  apply bind_ext; [reflexivity|]. intros _ tr3.
  apply bind_ext.
  { destruct (falsy_option _ Fb) as [->| ->]; reflexivity. }
  intros bg_final tr4.
  apply bind_ext; [now apply build_clips_falsy_fonts|]. intros clips tr5.
  apply bind_ext; [|reflexivity].
  destruct (falsy_option _ Fm) as [->| ->]; reflexivity.
Qed.

(** X7. An entry of the script that is not an object stops the render
    with an [AttributeError] when its turn comes: for the first entry, after
    the directories and the background are made and the callback has been
    told of entry 1, and before any speech is asked for. *)
Theorem entry_that_is_no_object
    script_path output_path background_path english_font_path urdu_font_path
    bgm_path bgm_volume log p rest bg_final :
  json_load w script_path = Returned (JList (p :: rest)) ->
  (forall items, p <> JDict items) ->
  ensure_temp_dirs w = None ->
  snd (background w background_path []) = Returned bg_final ->
  exists msg,
    run (build_video w script_path output_path background_path
           english_font_path urdu_font_path bgm_path bgm_volume log)
    = (([TempDirs;
         Background (if str_truthy background_path
                     then background_path else None)]
        ++ (if log
            then [Log (progress_message 1 (S (List.length rest)))]
            else []))%list,
       Raised (AttributeError msg)).
Proof.
  intros L NO D B.
  assert (G : pair_get p "en" (JStr "") = Raised (no_attribute_get p)).
  { destruct p; try reflexivity. now destruct (NO items). }
  exists ("'" ++ type_name p ++ "' object has no attribute 'get'").
  fold (no_attribute_get p).
  rewrite build_video_run.
  unfold gather_clips, _load_script, bind at 1 2, call. rewrite L.
  unfold ret at 1. cbv beta iota.
  unfold bind at 1, check. rewrite D. unfold ret at 1. cbv beta iota.
  unfold bind at 1, emit at 1. cbv beta iota.
  unfold bind at 1.
  destruct (background w background_path ([] ++ [TempDirs])%list)
    as [trb [bg|e]] eqn:Bg.
  - apply background_returned in Bg. subst trb.
    cbn [build_clips]. unfold bind at 1, build_segment.
    unfold bind at 1.
    destruct log.
    + unfold emit at 1. cbv beta iota. unfold bind at 1, call at 1.
      rewrite G. reflexivity.
    + unfold ret at 1. cbv beta iota. unfold bind at 1, call at 1.
      rewrite G. reflexivity.
  - rewrite (background_regular w background_path) in Bg.
    destruct (background w background_path []) as [? [?|?]];
      simpl in B; [|discriminate B]. discriminate Bg.
Qed.
End Options.

Lemma empty_options_are_absent_witness :
  build_video (demo_world demo_script Written) "script.json" "out.mp4"
    (Some "") (Some "") None (Some "") 0.1 true []
  = build_video (demo_world demo_script Written) "script.json" "out.mp4"
      None None None None 0.1 true [].
Proof.
  apply (empty_options_are_absent (demo_world demo_script Written));
    reflexivity.
Defined.

Lemma entry_that_is_no_object_witness :
  exists msg,
    run (build_video (demo_world (JList [JStr "Hi"; demo_entry]) Written)
           "script.json" "out.mp4" None None None None 0.1 true)
    = (([TempDirs; Background None]
        ++ [Log (progress_message 1 2)])%list,
       Raised (AttributeError msg)).
Proof.
  refine (entry_that_is_no_object
            (demo_world (JList [JStr "Hi"; demo_entry]) Written)
            "script.json" "out.mp4" None None None None 0.1 true
            (JStr "Hi") [demo_entry] "temp/images/fallback_bg.jpg"
            _ _ _ _); try reflexivity.
  intros items. discriminate.
Defined.

(** ** The music stage *)

(** X8. The music stage never raises, whatever the decoder answers: it
    hands on a timeline with the same clips, duration, frame rate and size,
    either the very timeline it was given or that timeline with the music,
    cut to its length and at the volume asked for, as its sound.  A music
    file that loads with length zero under a video of positive length is a
    failure of the first kind: the quotient of the two lengths is an
    infinity, [int] refuses it, the timeline goes on without music, and the
    callback, if there is one, is told that an infinity cannot be
    converted. *)
Theorem music_stage_never_raises {T} `{PyFloat T} (w : world T)
    (final : timeline T) (bgm_volume : T) (log : bool)
    (tr : list (event T)) :
  (forall bgm_path,
      exists tr' final',
        mix_bgm w final bgm_path bgm_volume log tr = (tr', Returned final') /\
        tl_clips final' = tl_clips final /\
        tl_duration final' = tl_duration final /\
        tl_fps final' = tl_fps final /\
        tl_size final' = tl_size final /\
        (final' = final \/
         exists p b,
           bgm_path = Some p /\
           AudioFileClip w p = Returned b /\
           tl_audio final'
           = let bgm := {| music_path := p;
                           music_material := b;
                           music_duration := tl_duration final;
                           music_volume := bgm_volume |} in
             match tl_audio final with
             | Silent => MusicOnly bgm
             | _ => SpeechAndMusic bgm
             end)) /\
  (forall p b,
      p <> "" -> AudioFileClip w p = Returned b ->
      fdiv (tl_duration final) b = None ->
      flt b (tl_duration final) = true ->
      flt fzero (tl_duration final) = true ->
      mix_bgm w final (Some p) bgm_volume log tr
      = ((tr ++ (if log
                 then [Log "Warning: Could not add BGM: cannot convert float infinity to integer"]
                 else []))%list,
         Returned final)).
Proof.
  split.
  - intros bgm_path.
    destruct (mix_bgm w final bgm_path bgm_volume log tr)
      as [tr' [final'|e]] eqn:R.
    + exists tr', final'. split; [reflexivity|].
      unfold mix_bgm in R. destruct bgm_path as [p|].
      2:{ apply ret_returned in R. destruct R as [_ ->].
          repeat split. now left. }
      destruct (str_truthy (Some p)).
      2:{ apply ret_returned in R. destruct R as [_ ->].
          repeat split. now left. }
      unfold try_except in R.
      destruct (add_bgm w final p bgm_volume tr) as [tr1 [f|e]] eqn:A.
      * inversion R; subst. apply add_bgm_returned in A.
        destruct A as (b & L & _ & _ & ->).
        repeat split. right. exists p, b.
        split; [reflexivity|]. split; [exact L|]. reflexivity.
      * destruct log; returned1 R; apply ret_returned in R;
          destruct R as [_ ->]; repeat split; now left.
    + destruct (mix_bgm_returns w final bgm_path bgm_volume log tr)
        as (f & S & _). rewrite R in S. discriminate S.
  - intros p b NE L D C V. unfold mix_bgm, str_truthy.
    apply String.eqb_neq in NE. rewrite NE. simpl negb. cbv iota.
    unfold try_except, add_bgm, bind at 1, call at 1. rewrite L.
    rewrite C.
    unfold bind at 1 2, call at 1, loops_needed. rewrite D.
    unfold int_error. rewrite V, orb_true_r.
    destruct log; unfold bind, emit, ret; simpl; [reflexivity|].
    now rewrite app_nil_r.
Qed.

Lemma music_stage_never_raises_witness :
  mix_bgm demo_world_silence demo_timeline (Some "silence.mp3") 0.1 true []
  = ([Log "Warning: Could not add BGM: cannot convert float infinity to integer"],
     Returned demo_timeline).
Proof.
  refine (proj2 (music_stage_never_raises demo_world_silence demo_timeline
                   0.1 true [])
            "silence.mp3" 0 _ _ _ _ _).
  - discriminate.
  - reflexivity.
  - reflexivity.
  - reflexivity.
  - reflexivity.
Defined.

(** ** The command line *)

Lemma printed_app (a b : list cli_event) :
  printed (a ++ b) = (printed a ++ printed b)%list.
Proof.
  induction a as [|ev a IH]; [reflexivity|].
  destruct ev; simpl; now rewrite IH.
Qed.

Lemma printed_build (tr : list (event Q)) :
  printed (map cli_build_event tr) = logged tr.
Proof.
  induction tr as [|ev tr IH]; [reflexivity|].
  destruct ev; simpl; now rewrite IH.
Qed.

Lemma logged_script_events (n : nat) (segments : list (json Q)) :
  forall idx clips,
    List.length clips = List.length segments ->
    logged (script_events true n idx segments clips)
    = map (fun i => progress_message i n) (seq idx (List.length segments)).
Proof.
  induction segments as [|p rest IH]; intros idx clips N.
  - destruct clips; reflexivity.
  - destruct clips as [|c clips]; [discriminate N|].
    cbn [script_events]. rewrite logged_app. simpl in N.
    cbn [segment_events logged app List.length seq map].
    f_equal. apply IH. now inversion N.
Qed.

Lemma no_cleanup_in_build (tr : list (event Q)) :
  ~ In CleanupTemp (map cli_build_event tr).
Proof.
  induction tr as [|ev tr IH]; [intros []|].
  intros [E|I]; [destruct ev; discriminate E | now apply IH].
Qed.

(** [CleanupTemp] is not in a list made of printed lines and of the
    render's events. *)
Ltac no_cleanup_here :=
  let I := fresh "I" in
  intros I;
  repeat first
    [ apply in_app_or in I; destruct I as [I|I]
    | destruct I as [I|I]; [discriminate I|] ];
  solve [ now apply no_cleanup_in_build in I | contradiction ].

(** Splits a list that ends in [CleanupTemp] there. *)
Ltac exists_before :=
  match goal with
  | |- exists before, (?a ++ ?b ++ ?c ++ [CleanupTemp])%list = _ /\ _ =>
      exists (a ++ b ++ c)%list; rewrite <- !app_assoc
  | |- exists before, (?a ++ ?b ++ [CleanupTemp])%list = _ /\ _ =>
      exists (a ++ b)%list; rewrite <- !app_assoc
  end.

Lemma before_the_encoder (tr : list (event Q)) :
  Forall not_write tr ->
  Forall (fun ev => ~ encoder_runs ev) (map cli_build_event tr).
Proof.
  intros F. induction F as [|ev tr N F IH]; [constructor|].
  cbn [map]. constructor; [|exact IH].
  destruct ev; simpl in *; tauto.
Qed.

(** X9. Of its own the command prints the start line, then one progress
    line for each entry of the script, numbered from 1, all of them before
    the encoder starts, and on success, after the encoder is done, the line
    that names the output; it never adds music, so that no warning about
    it is printed.  What the encoder prints of its own comes between the
    last progress line and the success line.  When the render raises, the
    command raises the same error and prints no success line.  Either way
    the temporary files are removed last, and only then, unless
    [--no-cleanup] was given. *)
Theorem command_line_run (w : world Q) (args : cli_args) :
  (forall evs,
      main w args = (evs, Returned tt) ->
      exists segments final before,
        json_load w (script args) = Returned (JList segments) /\
        evs
        = (Print "[info] Starting video build..." :: before
           ++ [Build (WriteOpen (output args));
               Build (WriteDone (output args) final);
               Print ("[info] Video written to " ++ output args)%string]
           ++ (if no_cleanup args then [] else [CleanupTemp]))%list /\
        Forall (fun ev => ~ encoder_runs ev) before /\
        printed before
        = map (fun i => progress_message i (List.length segments))
            (seq 1 (List.length segments))) /\
  (forall evs e,
      main w args = (evs, Raised e) ->
      snd (run (build_video w (script args) (output args)
                  (background_arg args) (english_font args) (urdu_font args)
                  None 0.1 true)) = Raised e /\
      printed evs
      = "[info] Starting video build..."
        :: logged (fst (run (build_video w (script args) (output args)
                               (background_arg args) (english_font args)
                               (urdu_font args) None 0.1 true)))) /\
  (forall evs o,
      main w args = (evs, o) ->
      if no_cleanup args then ~ In CleanupTemp evs
      else exists before, evs = (before ++ [CleanupTemp])%list /\
                          ~ In CleanupTemp before).
Proof.
  unfold main. cbv zeta. split; [|split].
  - intros evs.
    rewrite build_video_run.
    pose proof (gather_clips_quiet w (script args) (background_arg args)
                  (english_font args) (urdu_font args) true) as Quiet.
    unfold emits in Quiet.
    destruct (gather_clips w (script args) (background_arg args)
                (english_font args) (urdu_font args) true [])
      as [tr1 [clips|e]] eqn:G; [|discriminate].
    unfold mix_bgm, ret. cbv beta iota.
    destruct (write_videofile w (assembled clips)); [|discriminate].
    intros E. apply pair_equal_spec in E. destruct E as [<- _].
    cbn [fst] in Quiet.
    pose proof (before_the_encoder tr1 Quiet) as Before.
    apply gather_clips_trace in G. destruct G as (segments & L & N & G).
    exists segments, (assembled clips), (map cli_build_event tr1).
    split; [exact L|]. split.
    + rewrite !map_app. cbn [map cli_build_event app].
      rewrite <- !app_assoc. reflexivity.
    + split; [exact Before|].
      rewrite printed_build, G. cbn [app logged].
      now rewrite (logged_script_events _ _ _ _ N).
  - intros evs e.
    destruct (run (build_video w (script args) (output args)
                     (background_arg args) (english_font args)
                     (urdu_font args) None 0.1 true)) as [tr [out|e']];
      [discriminate|].
    intros E. inversion E; subst; clear E. split; [reflexivity|].
    remember "[info] Starting video build..." as started.
    cbn [app printed fst]. f_equal.
    rewrite printed_app, printed_build.
    destruct (no_cleanup args); simpl; now rewrite app_nil_r.
  - intros evs o E.
    destruct (run (build_video w (script args) (output args)
                     (background_arg args) (english_font args)
                     (urdu_font args) None 0.1 true)) as [tr [out|e']];
      apply pair_equal_spec in E; destruct E as [<- <-];
      destruct (no_cleanup args);
      try (exists_before; split; [reflexivity|]);
      no_cleanup_here.
Qed.

Lemma command_line_run_witness :
  printed (fst (main (demo_world demo_lesson Written) demo_args))
  = ["[info] Starting video build...";
     "[segment 1/2] Generating audio and frame...";
     "[segment 2/2] Generating audio and frame...";
     "[info] Video written to output.mp4"].
Proof.
  destruct (proj1 (command_line_run (demo_world demo_lesson Written)
                     demo_args)
              (fst (main (demo_world demo_lesson Written) demo_args))
              eq_refl)
    as (segments & final & before & L & E & _ & P).
  rewrite E. cbn [printed]. rewrite printed_app, P.
  injection L as <-. reflexivity.
Defined.

(** ** The font search *)

Section DictSet.
Context {A : Type}.

Lemma dict_set_keys (k : string) (v : A) (m : list (string * A)) :
  map fst (dict_set k v m)
  = if existsb (String.eqb k) (map fst m) then map fst m
    else (map fst m ++ [k])%list.
Proof.
  induction m as [|[k' v'] m IH]; [reflexivity|].
  cbn [dict_set map fst existsb].
  destruct (String.eqb k k') eqn:E; cbn [orb map fst]; [reflexivity|].
  rewrite IH. now destruct (existsb (String.eqb k) (map fst m)).
Qed.

Lemma dict_set_NoDup (k : string) (v : A) (m : list (string * A)) :
  NoDup (map fst m) -> NoDup (map fst (dict_set k v m)).
Proof.
  intros N. rewrite dict_set_keys.
  destruct (existsb (String.eqb k) (map fst m)) eqn:E; [exact N|].
  apply NoDup_app; [exact N | repeat constructor; intros [] | ].
  intros x I [X|[]].
  assert (Y : existsb (String.eqb k) (map fst m) = true).
  { apply existsb_exists. exists x. split; [exact I|].
    subst. apply String.eqb_refl. }
  congruence.
Qed.

Lemma dict_set_has (k : string) (v : A) (m : list (string * A)) :
  In (k, v) (dict_set k v m).
Proof.
  induction m as [|[k' v'] m IH]; [now left|].
  cbn [dict_set]. destruct (String.eqb k k') eqn:E.
  - apply String.eqb_eq in E. subst. now left.
  - now right.
Qed.

Lemma dict_set_keeps (k k' : string) (v v' : A) (m : list (string * A)) :
  k' <> k -> In (k', v') m -> In (k', v') (dict_set k v m).
Proof.
  intros NE. induction m as [|[k2 v2] m IH]; [intros []|].
  cbn [dict_set]. destruct (String.eqb k k2) eqn:E.
  - apply String.eqb_eq in E. subst.
    intros [X|I]; [inversion X; subst; now destruct NE | now right].
  - intros [X|I]; [now left | right; now apply IH].
Qed.

Lemma dict_set_in (k k' : string) (v v' : A) (m : list (string * A)) :
  NoDup (map fst m) ->
  In (k', v') (dict_set k v m) ->
  (k' = k /\ v' = v) \/ (k' <> k /\ In (k', v') m).
Proof.
  induction m as [|[k2 v2] m IH]; intros N.
  - intros [X|[]]. inversion X. now left.
  - cbn [dict_set]. inversion N as [|? ? N1 N2]; subst.
    destruct (String.eqb k k2) eqn:E.
    + apply String.eqb_eq in E. subst.
      intros [X|I]; [inversion X; now left|].
      right. split; [|now right].
      intros ->. apply N1. now apply (in_map fst) in I.
    + apply String.eqb_neq in E.
      intros [X|I].
      * inversion X; subst. right. split; [congruence | now left].
      * destruct (IH N2 I) as [L|[NE I']]; [now left|].
        right. split; [exact NE | now right].
Qed.
End DictSet.

Section FontSearch.
Context {T : Type} (env : font_env T).

Lemma lower_map_step (done : list string) m p :
  lower_map_of env done m ->
  lower_map_of env (done ++ [p]) (dict_set (font_key env p) p m).
Proof.
  intros (N & V & K). split; [|split].
  - now apply dict_set_NoDup.
  - intros k v I. apply dict_set_in in I; [|exact N].
    destruct I as [[-> ->]|[NE I]].
    + split; [reflexivity|]. exists done, []. split; [reflexivity|].
      intros q [].
    + destruct (V k v I) as (E & l1 & l2 & D & L). split; [exact E|].
      exists l1, (l2 ++ [p])%list. split.
      * rewrite D, <- app_assoc. reflexivity.
      * intros q Iq. apply in_app_or in Iq.
        destruct Iq as [Iq|[<-|[]]]; [now apply L | congruence].
  - intros q Iq. apply in_app_or in Iq. destruct Iq as [Iq|[<-|[]]].
    + destruct (K q Iq) as [v I].
      destruct (String.eqb (font_key env q) (font_key env p)) eqn:E.
      * apply String.eqb_eq in E. rewrite E. exists p. apply dict_set_has.
      * apply String.eqb_neq in E. exists v. now apply dict_set_keeps.
    + exists p. apply dict_set_has.
Qed.

Lemma lower_map_fold (rest : list string) :
  forall done m,
    lower_map_of env done m ->
    lower_map_of env (done ++ rest)
      (fold_left (fun m p => dict_set (font_key env p) p m) rest m).
Proof.
  induction rest as [|p rest IH]; intros done m I.
  - now rewrite app_nil_r.
  - cbn [fold_left].
    replace (done ++ p :: rest)%list with ((done ++ [p]) ++ rest)%list
      by now rewrite <- app_assoc.
    apply IH. now apply lower_map_step.
Qed.

Lemma lower_map_spec (candidates : list string) :
  lower_map_of env candidates (lower_map env candidates).
Proof.
  apply (lower_map_fold candidates [] []).
  split; [constructor|]. split; [intros k v []|intros p []].
Qed.
End FontSearch.

Section PreferredFonts.
Context {T : Type} (env : font_env T).

(** The search by preferred names, read off the dict. *)
Lemma preferred_names_spec (preferred : list string) :
  match _find_font_by_preferred_names env preferred with
  | Some full =>
      In full (_candidate_font_paths env) /\
      (exists before name after,
          preferred = (before ++ name :: after)%list /\
          names_font env name full = true /\
          forall n p,
            In n before -> In p (_candidate_font_paths env) ->
            names_font env n p = false) /\
      (exists l1 l2,
          _candidate_font_paths env = (l1 ++ full :: l2)%list /\
          forall p, In p l2 -> font_key env p <> font_key env full)
  | None =>
      forall n p,
        In n preferred -> In p (_candidate_font_paths env) ->
        names_font env n p = false
  end.
Proof.
  unfold _find_font_by_preferred_names. cbv zeta.
  set (m := fold_left _ (_candidate_font_paths env) []).
  pose proof (lower_map_spec env (_candidate_font_paths env)) as Spec.
  change (lower_map env (_candidate_font_paths env)) with m in Spec.
  destruct Spec as (_ & V & K).
  assert (Miss : forall name,
             find (fun kv => contains (lower name) (fst kv)) m = None ->
             forall p, In p (_candidate_font_paths env) ->
                       names_font env name p = false).
  { intros name F p I. destruct (K p I) as [v Iv].
    apply (find_none _ _ F) in Iv. exact Iv. }
  induction preferred as [|name rest IH].
  - intros n p [].
  - cbn beta iota.
    destruct (find (fun kv => contains (lower name) (fst kv)) m)
      as [[k full]|] eqn:F.
    + apply find_some in F. destruct F as [I C]. simpl in C.
      destruct (V k full I) as (-> & l1 & l2 & D & L).
      split; [rewrite D; apply in_elt|]. split.
      * exists [], name, rest. repeat split; [exact C|]. intros n p [].
      * exists l1, l2. split; assumption.
    + specialize (Miss name F).
      match goal with
      | |- match ?r with _ => _ end =>
          destruct r as [full|] eqn:R
      end.
      * destruct IH as (I & (before & n' & after & P & C & B) & D).
        split; [exact I|]. split; [|exact D].
        exists (name :: before), n', after. subst rest.
        repeat split; [exact C|].
        intros n p [<-|In']; [apply Miss | now apply B].
      * intros n p [<-|In']; [apply Miss | now apply IH].
Qed.

(** X10. The search by preferred names returns a font file that was found
    on the disk, whose file name contains the earliest preferred name that
    any found file contains, case apart; when several found files have the
    same file name, case apart, it is the last of them that is returned.
    It returns nothing only when no found file contains any of the
    names. *)
Theorem preferred_font_search (preferred : list string) :
  match _find_font_by_preferred_names env preferred with
  | Some full =>
      In full (_candidate_font_paths env) /\
      (exists before name after,
          preferred = (before ++ name :: after)%list /\
          names_font env name full = true /\
          forall n p,
            In n before -> In p (_candidate_font_paths env) ->
            names_font env n p = false) /\
      (exists l1 l2,
          _candidate_font_paths env = (l1 ++ full :: l2)%list /\
          forall p, In p l2 -> font_key env p <> font_key env full)
  | None =>
      forall n p,
        In n preferred -> In p (_candidate_font_paths env) ->
        names_font env n p = false
  end.
Proof. exact (preferred_names_spec preferred). Qed.

(** A file that names Arial is found by the search for the Urdu names. *)
Lemma urdu_search_takes_arial (p : string) :
  In p (_candidate_font_paths env) ->
  names_font env "Arial" p = true ->
  exists full,
    _find_font_by_preferred_names env PREFERRED_FONTS_URDU = Some full /\
    In full (_candidate_font_paths env) /\
    names_font env "Arial" full = true.
Proof.
  intros I A.
  pose proof (preferred_names_spec PREFERRED_FONTS_URDU) as S.
  destruct (_find_font_by_preferred_names env PREFERRED_FONTS_URDU)
    as [full|].
  - destruct S as (If & (before & name & after & P & C & B) & _).
    exists full. split; [reflexivity|]. split; [exact If|].
    destruct before as [|n before].
    + injection P as <- _. exact C.
    + injection P as <- _.
      rewrite (B "Arial" p (or_introl eq_refl) I) in A. discriminate.
  - rewrite (S "Arial" p (or_introl eq_refl) I) in A. discriminate.
Qed.

(** The last loop of both searches looks for what the search by preferred
    names has looked for already. *)
Lemma arial_loop_finds_nothing (preferred : list string) :
  In "Arial" preferred ->
  _find_font_by_preferred_names env preferred = None ->
  first_tagged env ["arial"] (_candidate_font_paths env) = None.
Proof.
  intros I N. pose proof (preferred_names_spec preferred) as S.
  rewrite N in S. unfold first_tagged.
  destruct (find _ (_candidate_font_paths env)) as [p|] eqn:F;
    [|reflexivity].
  apply find_some in F. destruct F as [Ip C]. cbv zeta in C.
  simpl existsb in C. rewrite orb_false_r in C.
  pose proof (S "Arial" p I Ip) as A.
  change (contains "arial" (lower (os_path_basename env p)) = false) in A.
  rewrite A in C. discriminate.
Qed.

Lemma truthy_found (preferred : list string) (full : string) :
  ~ In "" (_candidate_font_paths env) ->
  _find_font_by_preferred_names env preferred = Some full ->
  str_truthy (Some full) = true.
Proof.
  intros NE F. pose proof (preferred_names_spec preferred) as S.
  rewrite F in S. destruct S as (I & _).
  unfold str_truthy. destruct (String.eqb_spec full ""); [|reflexivity].
  subst. contradiction.
Qed.

(** X11. When no path on the disk is the empty string, no font path is
    passed, and the configuration is an object that names no existing file
    under the key (as it is when there is no [fonts_config.json]), the
    English font is the one the search by preferred names finds, and the
    Urdu font is that one or else the first file tagged as an Arabic-script
    font: the closing loop that looks for an Arial file never supplies the
    result, since Arial is among the preferred names of both. *)
Theorem arial_fallback_is_never_taken (override_path : option string) :
  ~ In "" (_candidate_font_paths env) ->
  str_truthy override_path = false ->
  (configured_font env "english_font_path" = Returned None ->
   get_english_font_path env override_path
   = Returned (_find_font_by_preferred_names env PREFERRED_FONTS_EN)) /\
  (configured_font env "urdu_font_path" = Returned None ->
   get_urdu_font_path env override_path
   = Returned
       match _find_font_by_preferred_names env PREFERRED_FONTS_URDU with
       | Some full => Some full
       | None =>
           first_tagged env ["arab"; "urdu"; "naskh"; "nastaliq"]
                        (_candidate_font_paths env)
       end).
Proof.
  intros NE O. split; intros Cf.
  - unfold get_english_font_path. rewrite O, Cf. cbv zeta.
    destruct (_find_font_by_preferred_names env PREFERRED_FONTS_EN)
      as [full|] eqn:F.
    + now rewrite (truthy_found _ _ NE F).
    + simpl str_truthy. cbv iota. f_equal.
      apply (arial_loop_finds_nothing PREFERRED_FONTS_EN);
        [right; left; reflexivity | exact F].
  - unfold get_urdu_font_path. rewrite O, Cf. cbv zeta.
    destruct (_find_font_by_preferred_names env PREFERRED_FONTS_URDU)
      as [full|] eqn:F.
    + now rewrite (truthy_found _ _ NE F).
    + simpl str_truthy. cbv iota.
      rewrite (arial_loop_finds_nothing PREFERRED_FONTS_URDU);
        [|left; reflexivity | exact F].
      now destruct (first_tagged env _ _).
Qed.

(** X12. With no font path passed and a configuration that is an object
    naming no existing Urdu font file, as soon as one font file found on the
    disk has Arial in its name the Urdu captions are set in a file with
    Arial in its name, whatever Nastaliq or Naskh fonts are installed beside
    it. *)
Theorem urdu_font_is_arial_when_installed (override_path : option string)
    (p : string) :
  ~ In "" (_candidate_font_paths env) ->
  str_truthy override_path = false ->
  configured_font env "urdu_font_path" = Returned None ->
  In p (_candidate_font_paths env) ->
  names_font env "Arial" p = true ->
  exists full,
    get_urdu_font_path env override_path = Returned (Some full) /\
    In full (_candidate_font_paths env) /\
    names_font env "Arial" full = true.
Proof.
  intros NE O Cf I A.
  destruct (urdu_search_takes_arial p I A) as (full & F & If & Af).
  exists full. split; [|split; assumption].
  unfold get_urdu_font_path. rewrite O, Cf. cbv zeta.
  rewrite F. now rewrite (truthy_found _ _ NE F).
Qed.
End PreferredFonts.

Lemma preferred_font_search_witness :
  In "/win/Fonts/arial.ttf"
     (_candidate_font_paths (demo_fonts (@nil (string * json Q)))).
Proof.
  exact (proj1 (preferred_font_search (demo_fonts []) PREFERRED_FONTS_URDU)).
Defined.

Lemma arial_fallback_is_never_taken_witness :
  get_english_font_path (demo_fonts (@nil (string * json Q))) None
  = Returned
      (_find_font_by_preferred_names (demo_fonts []) PREFERRED_FONTS_EN).
Proof.
  refine (proj1 (arial_fallback_is_never_taken (demo_fonts []) None _ _) _).
  - vm_compute. intuition discriminate.
  - reflexivity.
  - reflexivity.
Defined.

Lemma urdu_font_is_arial_when_installed_witness :
  exists full,
    get_urdu_font_path (demo_fonts (@nil (string * json Q))) None
    = Returned (Some full) /\
    In full (_candidate_font_paths (demo_fonts [])) /\
    names_font (demo_fonts []) "Arial" full = true.
Proof.
  refine (urdu_font_is_arial_when_installed (demo_fonts []) None
            "/win/Fonts/arial.ttf" _ _ _ _ _).
  - vm_compute. intuition discriminate.
  - reflexivity.
  - reflexivity.
  - vm_compute. right. right. left. reflexivity.
  - reflexivity.
Defined.

(** ** Image geometry *)

Lemma Qtrunc_bounds (a : Q) :
  0 <= a -> inject_Z (Qtrunc a) <= a /\ a < inject_Z (Qtrunc a + 1).
Proof.
  intros L. rewrite (Qtrunc_floor a L). split.
  - apply Qfloor_le.
  - apply Qlt_floor.
Qed.

Lemma Qtrunc_lower (a : Q) (n : Z) :
  inject_Z n <= a -> (0 <= n)%Z -> (n <= Qtrunc a)%Z.
Proof.
  intros L N.
  assert (0 <= a) as P.
  { eapply Qle_trans; [|exact L]. unfold Qle. simpl. lia. }
  rewrite (Qtrunc_floor a P).
  rewrite <- (Qfloor_Z n). now apply Qfloor_resp_le.
Qed.

Lemma ratio_positive (src_w src_h : Z) :
  (0 < src_w)%Z -> (0 < src_h)%Z -> 0 < inject_Z src_w / inject_Z src_h.
Proof.
  intros W Hh. apply Qlt_shift_div_l.
  - unfold Qlt. simpl. lia.
  - unfold Qlt. simpl. lia.
Qed.

Lemma Qeq_bool_positive (a : Q) : 0 < a -> Qeq_bool a 0 = false.
Proof.
  intros P. destruct (Qeq_bool a 0) eqn:E; [|reflexivity].
  apply Qeq_bool_iff in E. rewrite E in P. discriminate.
Qed.

(** The fit in exact arithmetic, where no operation fails. *)
Lemma background_fit_Q (src_w src_h : Z) :
  (0 < src_w)%Z -> (0 < src_h)%Z ->
  background_fit (T := Q) src_w src_h
  = let target_ratio := inject_Z VIDEO_WIDTH / inject_Z VIDEO_HEIGHT in
    let src_ratio := inject_Z src_w / inject_Z src_h in
    if Qltb (Qabs.Qabs (src_ratio - target_ratio)) 0.01 then
      Returned {| resize_to := (VIDEO_WIDTH, VIDEO_HEIGHT);
                  crop_box := None |}
    else if Qltb target_ratio src_ratio then
      let new_width := Qtrunc (inject_Z VIDEO_HEIGHT * src_ratio) in
      let left := ((new_width - VIDEO_WIDTH) / 2)%Z in
      Returned {| resize_to := (new_width, VIDEO_HEIGHT);
                  crop_box :=
                    Some (left, 0, left + VIDEO_WIDTH, VIDEO_HEIGHT)%Z |}
    else
      let new_height := Qtrunc (inject_Z VIDEO_WIDTH / src_ratio) in
      let top := ((new_height - VIDEO_HEIGHT) / 2)%Z in
      Returned {| resize_to := (VIDEO_WIDTH, new_height);
                  crop_box :=
                    Some (0, top, VIDEO_WIDTH, top + VIDEO_HEIGHT)%Z |}.
Proof.
  intros W Hh. pose proof (ratio_positive src_w src_h W Hh) as R.
  unfold background_fit, int_true_div, to_float, true_div, py_int,
    outcome_bind.
  assert ((src_h =? 0)%Z = false) as -> by (apply Z.eqb_neq; lia).
  cbn -[Qdiv Qmult Qminus inject_Z Qltb Qabs.Qabs Qtrunc Z.div Qeq_bool
        VIDEO_WIDTH VIDEO_HEIGHT].
  change (Qeq_bool (inject_Z VIDEO_HEIGHT) 0) with false. cbv iota.
  rewrite (Qeq_bool_positive (inject_Z src_h)) by (unfold Qlt; simpl; lia).
  rewrite (Qeq_bool_positive _ R). reflexivity.
Qed.

Lemma floor_of_ratio (k a b n : Z) (x : Q) :
  (0 < b)%Z ->
  x * inject_Z b == inject_Z (k * a) ->
  inject_Z n <= x -> x < inject_Z (n + 1) ->
  (n * b <= k * a < (n + 1) * b)%Z.
Proof.
  intros B X L U.
  assert (0 < inject_Z b) as Bq by (unfold Qlt; simpl; lia).
  split.
  - rewrite Zle_Qle, inject_Z_mult, <- X.
    apply Qmult_le_compat_r; [exact L | now apply Qlt_le_weak].
  - rewrite Zlt_Qlt, <- X, inject_Z_mult.
    apply Qmult_lt_compat_r; assumption.
Qed.

(** Whatever the float operations give, the fit that is returned is cut
    to the frame and centred. *)
Lemma background_fit_shape {T} `{PyFloatGeometry T} (src_w src_h : Z)
    (g : fit) :
  background_fit src_w src_h = Returned g ->
  saved_size g = (VIDEO_WIDTH, VIDEO_HEIGHT) /\
  match crop_box g with
  | None => resize_to g = (VIDEO_WIDTH, VIDEO_HEIGHT)
  | Some (x1, y1, x2, y2) =>
      let '(new_width, new_height) := resize_to g in
      ((new_height = VIDEO_HEIGHT /\ y1 = 0 /\ y2 = new_height) \/
       (new_width = VIDEO_WIDTH /\ x1 = 0 /\ x2 = new_width)) /\
      0 <= (new_width - x2) - x1 <= 1 /\
      0 <= (new_height - y2) - y1 <= 1
  end%Z.
Proof.
  unfold background_fit, outcome_bind.
  destruct (int_true_div VIDEO_WIDTH VIDEO_HEIGHT) as [t|]; [|discriminate].
  destruct (int_true_div src_w src_h) as [r|]; [|discriminate].
  destruct (flt (fabs (fsub r t)) lit_0_01).
  { intros E. injection E as <-. split; reflexivity. }
  destruct (flt t r).
  - destruct (to_float VIDEO_HEIGHT) as [fnh|]; [|discriminate].
    destruct (py_int (fmul fnh r)) as [n|]; [|discriminate].
    intros E. injection E as <-. unfold saved_size.
    cbn [crop_box resize_to]. unfold VIDEO_WIDTH, VIDEO_HEIGHT.
    split; [f_equal; lia|]. split; [left; repeat split|].
    split; Z.div_mod_to_equations; lia.
  - destruct (to_float VIDEO_WIDTH) as [fnw|]; [|discriminate].
    destruct (true_div fnw r) as [q|]; [|discriminate].
    destruct (py_int q) as [n|]; [|discriminate].
    intros E. injection E as <-. unfold saved_size.
    cbn [crop_box resize_to]. unfold VIDEO_WIDTH, VIDEO_HEIGHT.
    split; [f_equal; lia|]. split; [right; repeat split|].
    split; Z.div_mod_to_equations; lia.
Qed.

(** In exact arithmetic the fit is computed for every image, and the
    resized image covers the frame. *)
Lemma background_fit_covers_Q (src_w src_h : Z) :
  (0 < src_w)%Z -> (0 < src_h)%Z ->
  exists g,
    background_fit (T := Q) src_w src_h = Returned g /\
    let '(new_width, new_height) := resize_to g in
    (VIDEO_WIDTH <= new_width /\ VIDEO_HEIGHT <= new_height /\
     ((new_height = VIDEO_HEIGHT /\
       (new_width - 1) * src_h < VIDEO_HEIGHT * src_w
                               < (new_width + 2) * src_h) \/
      (new_width = VIDEO_WIDTH /\
       (new_height - 1) * src_w < VIDEO_WIDTH * src_h
                                < (new_height + 2) * src_w) \/
      crop_box g = None))%Z.
Proof.
  intros W Hh. rewrite (background_fit_Q src_w src_h W Hh).
  pose proof (ratio_positive src_w src_h W Hh) as R.
  assert (inject_Z VIDEO_WIDTH / inject_Z VIDEO_HEIGHT == 0.5625) as Tr
    by reflexivity.
  assert (~ inject_Z src_h == 0) as Hq by (unfold Qeq; simpl; lia).
  assert (~ inject_Z src_w == 0) as Wq by (unfold Qeq; simpl; lia).
  cbv zeta.
  set (r := inject_Z src_w / inject_Z src_h) in *.
  set (t := inject_Z VIDEO_WIDTH / inject_Z VIDEO_HEIGHT) in *.
  destruct (Qltb (Qabs.Qabs (r - t)) 0.01) eqn:Near.
  - eexists. split; [reflexivity|]. cbn [resize_to crop_box].
    split; [reflexivity|]. split; [reflexivity|]. right. right. reflexivity.
  - apply Qltb_false in Near.
    destruct (Qltb t r) eqn:Wide.
    + apply Qltb_true in Wide.
      rewrite Qabs.Qabs_pos in Near by lra.
      set (x := inject_Z VIDEO_HEIGHT * r).
      assert (inject_Z 1080 <= x) as Lo.
      { unfold x. change (inject_Z VIDEO_HEIGHT) with 1920.
        change (inject_Z 1080) with 1080. lra. }
      pose proof (Qtrunc_lower x 1080 Lo ltac:(lia)) as N.
      assert (0 <= x) as P by (change (inject_Z 1080) with 1080 in Lo; lra).
      destruct (Qtrunc_bounds x P) as [L U].
      assert (x * inject_Z src_h == inject_Z (VIDEO_HEIGHT * src_w)) as X.
      { unfold x, r. rewrite inject_Z_mult. field. exact Hq. }
      pose proof (floor_of_ratio _ _ _ _ x Hh X L U) as F.
      eexists. split; [reflexivity|]. cbn [resize_to crop_box]. fold x.
      unfold VIDEO_WIDTH, VIDEO_HEIGHT in *.
      generalize dependent (Qtrunc x). intros n N _ _ F.
      split; [exact N|]. split; [lia|]. left. split; [reflexivity|]. nia.
    + apply Qltb_false in Wide.
      rewrite Qabs.Qabs_neg in Near by lra.
      set (x := inject_Z VIDEO_WIDTH / r).
      assert (inject_Z 1920 <= x) as Lo.
      { unfold x. apply Qle_shift_div_l; [exact R|].
        change (inject_Z VIDEO_WIDTH) with 1080.
        change (inject_Z 1920) with 1920. lra. }
      pose proof (Qtrunc_lower x 1920 Lo ltac:(lia)) as N.
      assert (0 <= x) as P by (change (inject_Z 1920) with 1920 in Lo; lra).
      destruct (Qtrunc_bounds x P) as [L U].
      assert (x * inject_Z src_w == inject_Z (VIDEO_WIDTH * src_h)) as X.
      { unfold x, r. rewrite inject_Z_mult. field. split; assumption. }
      pose proof (floor_of_ratio _ _ _ _ x W X L U) as F.
      eexists. split; [reflexivity|]. cbn [resize_to crop_box]. fold x.
      unfold VIDEO_WIDTH, VIDEO_HEIGHT in *.
      generalize dependent (Qtrunc x). intros n N _ _ F.
      split; [lia|]. split; [exact N|]. right. left.
      split; [reflexivity|]. nia.
Qed.

(** The fit in binary64: a landscape photo, a tall image, a square, an
    image within 0.01 of the target ratio, and a tall image whose height
    after the resize is one less than the exact quotient rounded down. *)
Lemma background_fit_binary64 :
  background_fit (T := float) 1920 1080
  = Returned {| resize_to := (3413, 1920)%Z;
                crop_box := Some (1166, 0, 2246, 1920)%Z |} /\
  background_fit (T := float) 600 1200
  = Returned {| resize_to := (1080, 2160)%Z;
                crop_box := Some (0, 120, 1080, 2040)%Z |} /\
  background_fit (T := float) 1000 1000
  = Returned {| resize_to := (1920, 1920)%Z;
                crop_box := Some (420, 0, 1500, 1920)%Z |} /\
  background_fit (T := float) 1090 1920
  = Returned {| resize_to := (1080, 1920)%Z; crop_box := None |} /\
  background_fit (T := float) 540 979
  = Returned {| resize_to := (1080, 1957)%Z;
                crop_box := Some (0, 18, 1080, 1938)%Z |} /\
  background_fit (T := Q) 540 979
  = Returned {| resize_to := (1080, 1958)%Z;
                crop_box := Some (0, 19, 1080, 1939)%Z |}.
Proof. repeat split; vm_compute; reflexivity. Qed.

(** X13. Whatever the float operations give, in binary64 as in exact
    arithmetic, a background fit that is returned saves an image of 1080
    by 1920: the image is resized to the frame, or resized to the frame's
    height or width and cropped on the other side by a box that spans the
    kept side and is centred, the margin after it being the margin before
    it or one pixel more.  Fitting the saved image a second time, as
    [build_video] does with a background the web front end has prepared,
    only resizes it, in binary64 and in exact arithmetic.  In exact
    arithmetic the fit is returned for every image of positive width and
    height, the resized image covers the frame, so that the box lies
    inside it, and its free side is within one pixel of the proportional
    size. *)
Theorem background_fit_covers_the_frame :
  (forall (T : Type) (F : PyFloat T) (G : PyFloatGeometry T)
          (src_w src_h : Z) (g : fit),
      background_fit src_w src_h = Returned g ->
      saved_size g = (VIDEO_WIDTH, VIDEO_HEIGHT) /\
      match crop_box g with
      | None => resize_to g = (VIDEO_WIDTH, VIDEO_HEIGHT)
      | Some (x1, y1, x2, y2) =>
          let '(new_width, new_height) := resize_to g in
          ((new_height = VIDEO_HEIGHT /\ y1 = 0 /\ y2 = new_height) \/
           (new_width = VIDEO_WIDTH /\ x1 = 0 /\ x2 = new_width)) /\
          0 <= (new_width - x2) - x1 <= 1 /\
          0 <= (new_height - y2) - y1 <= 1
      end%Z) /\
  background_fit (T := float) VIDEO_WIDTH VIDEO_HEIGHT
  = Returned {| resize_to := (VIDEO_WIDTH, VIDEO_HEIGHT);
                crop_box := None |} /\
  background_fit (T := Q) VIDEO_WIDTH VIDEO_HEIGHT
  = Returned {| resize_to := (VIDEO_WIDTH, VIDEO_HEIGHT);
                crop_box := None |} /\
  (forall src_w src_h : Z,
      (0 < src_w)%Z -> (0 < src_h)%Z ->
      exists g,
        background_fit (T := Q) src_w src_h = Returned g /\
        let '(new_width, new_height) := resize_to g in
        (VIDEO_WIDTH <= new_width /\ VIDEO_HEIGHT <= new_height /\
         ((new_height = VIDEO_HEIGHT /\
           (new_width - 1) * src_h < VIDEO_HEIGHT * src_w
                                   < (new_width + 2) * src_h) \/
          (new_width = VIDEO_WIDTH /\
           (new_height - 1) * src_w < VIDEO_WIDTH * src_h
                                    < (new_height + 2) * src_w) \/
          crop_box g = None))%Z).
Proof.
  split; [intros T F G; apply background_fit_shape|].
  split; [vm_compute; reflexivity|]. split; [vm_compute; reflexivity|].
  exact background_fit_covers_Q.
Qed.

(** The tall image of 540 by 979, in binary64. *)
Lemma background_fit_covers_the_frame_witness :
  saved_size {| resize_to := (1080, 1957)%Z;
                crop_box := Some (0, 18, 1080, 1938)%Z |}
  = (VIDEO_WIDTH, VIDEO_HEIGHT).
Proof.
  refine (proj1 (proj1 background_fit_covers_the_frame
                   float _ _ 540%Z 979%Z _ _)).
  vm_compute. reflexivity.
Defined.

Lemma card_anchor_binary64 :
  outcome_bind (to_float (T := float) (VIDEO_HEIGHT * scale)%Z)
    (fun vh => py_int (fmul vh lit_0_4))
  = Returned 1536%Z.
Proof. vm_compute. reflexivity. Qed.

Lemma max_box_width_binary64 :
  max_box_width_scaled (T := float) = Returned 1736%Z.
Proof. vm_compute. reflexivity. Qed.

Lemma caption_card_binary64 (en_w_s en_h_s ur_w_s ur_h_s : Z) :
  caption_card (T := float) (en_w_s, en_h_s) (ur_w_s, ur_h_s)
  = let box_width_s := (Z.max en_w_s ur_w_s + 120)%Z in
    let box_height_s := (en_h_s + ur_h_s + 152)%Z in
    let box_left_s := ((2160 - box_width_s) / 2)%Z in
    let box_top_s := (1536 - box_height_s / 2)%Z in
    Returned {| box_left_s := box_left_s;
                box_top_s := box_top_s;
                box_right_s := (box_left_s + box_width_s)%Z;
                box_bottom_s := (box_top_s + box_height_s)%Z |}.
Proof.
  pose proof card_anchor_binary64 as A. unfold outcome_bind in A.
  unfold caption_card, outcome_bind.
  destruct (to_float (T := float) (VIDEO_HEIGHT * scale)) as [vh|e];
    [|discriminate].
  destruct (py_int (fmul vh lit_0_4)) as [y|e]; [|discriminate].
  injection A as ->. cbv zeta.
  unfold VIDEO_WIDTH, scale, box_padding, line_spacing.
  f_equal. f_equal; Z.div_mod_to_equations; lia.
Qed.

(** X14. In binary64 the card of a caption is computed without an error
    for any measured sizes of the two texts.  It is as wide as the wider
    text plus the padding on both sides, centred on the canvas of 2160
    pixels to within one pixel, and centred on the line at 40 percent of
    the height of the canvas.  A line that is no wider than the wider text
    is drawn between the paddings of the card, with at most one pixel over
    on the right; when the wider text keeps to the wrap width of 1736
    pixels, the card keeps 152 pixels of the canvas free on each side. *)
Theorem caption_card_is_centred (en_w_s en_h_s ur_w_s ur_h_s : Z) :
  exists c,
    caption_card (T := float) (en_w_s, en_h_s) (ur_w_s, ur_h_s)
    = Returned c /\
    (box_right_s c - box_left_s c
     = Z.max en_w_s ur_w_s + 2 * (box_padding * scale) /\
     0 <= (VIDEO_WIDTH * scale - box_right_s c) - box_left_s c <= 1 /\
     0 <= (box_top_s c + box_bottom_s c) - 2 * 1536 <= 1 /\
     (forall w,
         0 <= w <= Z.max en_w_s ur_w_s ->
         box_left_s c + box_padding * scale <= line_x w /\
         line_x w + w <= box_right_s c - box_padding * scale + 1) /\
     (forall limit,
         max_box_width_scaled (T := float) = Returned limit ->
         Z.max en_w_s ur_w_s <= limit ->
         152 <= box_left_s c /\ box_right_s c <= 2008))%Z.
Proof.
  rewrite caption_card_binary64. cbv zeta. eexists. split; [reflexivity|].
  cbn [box_left_s box_right_s box_top_s box_bottom_s].
  unfold line_x, VIDEO_WIDTH, scale, box_padding.
  set (cw := Z.max en_w_s ur_w_s). clearbody cw.
  split; [Z.div_mod_to_equations; lia|]. split; [Z.div_mod_to_equations; lia|].
  split; [Z.div_mod_to_equations; lia|]. split.
  - intros w B. Z.div_mod_to_equations. lia.
  - intros limit M B. rewrite max_box_width_binary64 in M.
    injection M as <-. Z.div_mod_to_equations. lia.
Qed.

Lemma caption_card_is_centred_witness :
  exists c,
    caption_card (T := float) (400, 100)%Z (500, 120)%Z = Returned c /\
    (box_right_s c - box_left_s c = 620)%Z.
Proof.
  destruct (caption_card_is_centred 400 100 500 120) as (c & E & W & _).
  exists c. split; [exact E | exact W].
Defined.

(** ** Script generation *)

Lemma Forall_prefix {A} (P : A -> Prop) (n : nat) (l : list A) :
  Forall P l -> Forall P (firstn n l).
Proof.
  intros F. revert n. induction F as [|x l Px F IH]; intros [|n]; simpl;
    constructor; auto.
Qed.

Section GeneratedScript.
Context {T : Type} (env : gemini_env T).

Lemma cleaned_usable (data : list (json T)) :
  Forall usable_entry (cleaned env data).
Proof.
  induction data as [|item rest IH]; [constructor|].
  destruct item; simpl; try exact IH.
  match goal with
  | |- Forall _ (if (negb (String.eqb ?a _) && negb (String.eqb ?b _))%bool
                 then _ else _) =>
      destruct (String.eqb_spec a ""); [exact IH|];
      destruct (String.eqb_spec b ""); [exact IH|]
  end.
  simpl. constructor; [|exact IH]. eexists _, _. now repeat split.
Qed.

Lemma configured_key (evs : list gemini_event) :
  _configure_gemini env = (evs, Returned tt) ->
  exists key, key <> "" /\ evs = [Configure key].
Proof.
  unfold _configure_gemini.
  destruct (if str_truthy (environ_api_key env) then environ_api_key env
            else _load_api_key_from_env_file env) as [key|];
    [|discriminate].
  unfold str_truthy. destruct (String.eqb_spec key ""); [discriminate|].
  simpl. intros E. injection E as <-. now exists key.
Qed.

(** X15. A script that [generate_script_with_gemini] returns was asked
    for with a positive number of pairs and a non-empty API key, in a
    single request.  It has at least one entry and at most [num_pairs];
    every entry is an object with the two keys [en] and [ur] and a
    non-empty string under each; the entries are the first usable items of
    the response, in the order of the response. *)
Theorem generated_script_is_usable
    (topic level : string) (num_pairs : Z) (script_type : string)
    (tr : list gemini_event) (script : list (json T)) :
  generate_script_with_gemini env topic level num_pairs script_type
  = (tr, Returned script) ->
  (0 < num_pairs)%Z /\
  (1 <= List.length script <= Z.to_nat num_pairs)%nat /\
  Forall usable_entry script /\
  exists key p response_text data,
    key <> "" /\
    tr = [Configure key; GenerateContent p] /\
    prompt_num_pairs p = num_pairs /\
    generate_content env p = Returned response_text /\
    json_loads env (unfence env (str_strip env response_text))
    = inl (JList data) /\
    script = firstn (Z.to_nat num_pairs) (cleaned env data).
Proof.
  unfold generate_script_with_gemini.
  destruct (Z.leb_spec num_pairs 0) as [|Pos]; [discriminate|].
  destruct (_configure_gemini env) as [evs [[]|e]] eqn:C; [|discriminate].
  destruct (configured_key evs C) as (key & K & ->).
  match goal with
  | |- context [generate_content env ?q] => set (p := q)
  end.
  destruct (generate_content env p) as [response_text|e] eqn:G;
    [|discriminate].
  cbv zeta.
  destruct (json_loads env (unfence env (str_strip env response_text)))
    as [data|exc] eqn:J; [|discriminate].
  destruct data as [| | | | |data|]; try discriminate.
  pose proof (cleaned_usable data) as U.
  destruct (cleaned env data) as [|c cs] eqn:Cl; [discriminate|].
  assert (script_is :
            (if (num_pairs <? Z.of_nat (List.length (c :: cs)))%Z
             then firstn (Z.to_nat num_pairs) (c :: cs) else c :: cs)
            = firstn (Z.to_nat num_pairs) (c :: cs)).
  { destruct (Z.ltb_spec num_pairs (Z.of_nat (List.length (c :: cs))));
      [reflexivity|].
    symmetry. apply firstn_all2. lia. }
  rewrite script_is.
  intros E. apply pair_equal_spec in E. destruct E as [<- E].
  injection E as <-.
  split; [exact Pos|]. split; [|split].
  - rewrite length_firstn. simpl List.length. lia.
  - apply Forall_prefix. exact U.
  - exists key, p, response_text, data.
    split; [exact K|]. split; [reflexivity|]. split; [reflexivity|].
    split; [exact G|]. split; [exact J|]. now rewrite Cl.
Qed.
End GeneratedScript.

Lemma split_lines_first (s : string) :
  exists first rest, split_lines s = first :: rest.
Proof.
  destruct s as [|c s]; simpl; [now eexists _, _|].
  destruct (Ascii.eqb c newline); [now eexists _, _|].
  destruct (split_lines s); now eexists _, _.
Qed.

Lemma split_lines_app (a b : string) :
  split_lines (a ++ String newline b)
  = (split_lines a ++ split_lines b)%list.
Proof.
  induction a as [|c a IH]; [reflexivity|].
  simpl. rewrite IH. destruct (Ascii.eqb c newline); [reflexivity|].
  destruct (split_lines_first a) as (first & rest & ->). reflexivity.
Qed.

Lemma split_lines_one_line (s : string) :
  one_line s = true -> split_lines s = [s].
Proof.
  induction s as [|c s IH]; [reflexivity|].
  simpl. destruct (Ascii.eqb c newline); [discriminate|].
  intros O. now rewrite (IH O).
Qed.

Lemma join_split_lines (s : string) : join_lines (split_lines s) = s.
Proof.
  unfold join_lines. induction s as [|c s IH]; [reflexivity|].
  simpl. destruct (split_lines_first s) as (first & rest & S).
  rewrite S in *.
  destruct (Ascii.eqb_spec c newline) as [->|].
  - simpl. simpl in IH. now rewrite IH.
  - destruct rest; simpl in *; now rewrite <- IH.
Qed.

Lemma first_line_prefix (pre text : string) :
  one_line pre = true ->
  String.prefix pre text = true ->
  exists first rest,
    split_lines text = first :: rest /\ String.prefix pre first = true.
Proof.
  revert text. induction pre as [|c pre IH]; intros text O P.
  - destruct text as [|b text]; simpl.
    + now exists "", [].
    + destruct (Ascii.eqb b newline); [now exists "", (split_lines text)|].
      destruct (split_lines text) as [|first rest].
      * now exists (String b ""), [].
      * now exists (String b first), rest.
  - destruct text as [|b text]; [discriminate|].
    simpl in O, P. apply andb_true_iff in O. destruct O as [N O].
    destruct (ascii_dec c b) as [<-|]; [|discriminate].
    destruct (IH text O P) as (first & rest & S & F).
    simpl. rewrite S. apply negb_true_iff in N. rewrite N.
    exists (String c first), rest. split; [reflexivity|].
    simpl. destruct (ascii_dec c c); [exact F|contradiction].
Qed.

Section Fence.
Context {T : Type} (env : gemini_env T).

(** X16. A response that opens with a code fence always loses its whole
    first line, whatever follows the three backquotes on it.  When the
    response is a fenced block, with any tag on the opening line and a
    closing line of three backquotes, what is parsed is the stripped text
    between the two lines; a response that does not open with a fence is
    parsed as it is. *)
Theorem code_fence_is_removed :
  (forall text,
      String.prefix "```" text = true ->
      exists first rest,
        split_lines text = first :: rest /\
        unfence env text
        = str_strip env
            (join_lines
               (match rest with
                | [] => rest
                | _ :: _ =>
                    if String.eqb (str_strip env (last rest "")) "```"
                    then removelast rest else rest
                end))) /\
  (forall tag body,
      one_line tag = true ->
      str_strip env "```" = "```" ->
      unfence env ("```" ++ tag ++ String newline (body ++ String newline "```"))
      = str_strip env body) /\
  (forall text, String.prefix "```" text = false -> unfence env text = text).
Proof.
  split; [|split].
  - intros text P.
    destruct (first_line_prefix "```" text eq_refl P)
      as (first & rest & S & F).
    exists first, rest. split; [exact S|].
    unfold unfence. rewrite P, S. cbv zeta. rewrite F. reflexivity.
  - intros tag body O St.
    unfold unfence.
    assert (P : String.prefix "```"
                  ("```" ++ tag ++ String newline (body ++ String newline "```"))
                = true).
    { simpl. repeat (destruct (ascii_dec _ _); [|contradiction]).
      now destruct (tag ++ _). }
    rewrite P. cbv zeta.
    assert (S : split_lines
                  ("```" ++ tag ++ String newline (body ++ String newline "```"))
                = (("```" ++ tag)%string :: split_lines body ++ ["```"])%list).
    { rewrite <- append_assoc. rewrite split_lines_app.
      rewrite split_lines_app.
      rewrite split_lines_one_line; [reflexivity|]. simpl. exact O. }
    rewrite S.
    assert (F : String.prefix "```" ("```" ++ tag) = true).
    { simpl. repeat (destruct (ascii_dec _ _); [|contradiction]).
      now destruct tag. }
    rewrite F.
    destruct (split_lines body ++ ["```"])%list as [|l ls] eqn:L.
    { destruct (split_lines body); discriminate. }
    rewrite <- L. rewrite last_last, St, String.eqb_refl.
    rewrite removelast_last. now rewrite join_split_lines.
  - intros text P. unfold unfence. now rewrite P.
Qed.
End Fence.

Lemma generated_script_is_usable_witness :
  Forall usable_entry [demo_entry].
Proof.
  refine (proj1 (proj2 (proj2
            (generated_script_is_usable (demo_gemini demo_response)
               "greetings" "beginner" 1 "words"
               [Configure "key";
                GenerateContent
                  {| prompt_topic := "greetings";
                     prompt_level := "beginner";
                     prompt_script_type := "words";
                     prompt_words := true;
                     prompt_num_pairs := 1 |}]
               [demo_entry] _)))).
  reflexivity.
Defined.

Lemma code_fence_is_removed_witness :
  unfence (demo_gemini "") demo_response = "script".
Proof.
  exact (proj1 (proj2 (code_fence_is_removed (demo_gemini "")))
           "json" "script" eq_refl eq_refl).
Defined.
